(** * Music genre classifier front end: a model of [frontend/app.js]

    The page script is a set of event handlers over module-level variables
    and DOM nodes.  Each handler is embedded as a function on an explicit
    state record; where a handler suspends at an [await], it is cut into the
    part that runs before the suspension and the part the browser resumes
    with the outcome of the awaited operation.

    JavaScript numbers are embedded as rationals ([Q]).  A number that goes
    to a style property (a bar width, the ring's offset) is computed
    exactly and kept as a number: a bar width of [w] stands for the string
    [w%], and the page's value differs from it by binary64 rounding of the
    same formula.  A number that is rounded to an integer or printed in
    digits is computed as the page does, in binary64 ([Num.binary64]), and
    printed from the exact value of the binary64 result.  [Math.PI] is the
    rational value of the binary64 constant.

    The markup and the style sheet are not part of the script.  Every node
    the script looks up is taken to exist, and no property depends on what a
    node shows before the script first writes to it. *)

From Stdlib Require Import QArith Qround Qabs Qpower ZArith Lia Lqa.
From Stdlib Require Import DecimalString Sorted Ascii.
From stdpp Require Import base option list strings.

Local Open Scope Q_scope.

(** ** Numbers *)

Module Num.

(** [a > b] on numbers. *)
Definition gtb (a b : Q) : bool := negb (Qle_bool a b).

(** [Math.round]: the nearest integer, a tie going towards +infinity. *)
Definition Math_round (x : Q) : Z := Qfloor (x + (1 # 2)).

(** [Math.PI], the binary64 value 3.141592653589793. *)
Definition Math_PI : Q := 884279719003555 # 281474976710656.

(** [String(n)] for an integral number. *)
Definition String_of_Z (z : Z) : string :=
  NilZero.string_of_int (Z.to_int z).

(** The floor of the binary logarithm of [|x|], for [x] other than 0. *)
Definition ilog2 (x : Q) : Z :=
  let k := (Z.log2 (Z.abs (Qnum x)) - Z.log2 (Zpos (Qden x)))%Z in
  if Qle_bool (2 ^ k) (Qabs x) then k else (k - 1)%Z.

(** The spacing of the binary64 numbers around [x]: 53 significant bits,
    and no exponent below that of the subnormal numbers. *)
Definition quantum (x : Q) : Q := 2 ^ (Z.max (ilog2 x - 52) (-1074)).

(** The integer nearest to [y], the even one on a tie. *)
Definition round_half_even (y : Q) : Z :=
  let f := Qfloor y in
  match Qcompare (y - inject_Z f) (1 # 2) with
  | Lt => f
  | Gt => (f + 1)%Z
  | Eq => if Z.even f then f else (f + 1)%Z
  end.

(** The binary64 number nearest to [x], as an operation of the script or
    the parsing of a JSON number gives it (round to nearest, ties to even),
    for a result of magnitude below 2^1024. *)
Definition binary64 (x : Q) : Q :=
  inject_Z (round_half_even (x / quantum x)) * quantum x.

(** [x.toFixed(1)]: the integer [n] with [n / 10] closest to [|x|] (the
    larger one on a tie), printed with one digit after the point, and a
    minus sign in front when [x < 0]. *)
Definition toFixed1 (x : Q) : string :=
  let n := Qfloor (Qabs x * 10 + (1 # 2)) in
  (if gtb 0 x then "-" else "") +:+
  String_of_Z (n / 10) +:+ "." +:+ String_of_Z (n mod 10).

End Num.

(** ** Data received from the classification service *)

(** An entry of [top_genres]. *)
Record Item := mkItem { item_genre : string; item_confidence : Q }.

(** The parsed JSON body of a response.  The handlers read [genre],
    [confidence] and [top_genres] of a prediction and [error] of a failure;
    an absent [top_genres] or [error] is [None]. *)
Record Data := mkData {
  genre : string;
  confidence : Q;
  top_genres : option (list Item);
  error : option string }.

(** The settled [fetch]: [ok] is [res.ok]; [json] is what [res.json()]
    resolves to, [None] when it rejects (the body is not JSON). *)
Record Response := mkResponse { ok : bool; json : option Data }.

(** How an awaited [fetch] settles: it rejects on a network error and
    resolves with a response otherwise, whatever the HTTP status. *)
Inductive Fetch := Rejected | Resolved (res : Response).

(** [arr.forEach((item, i) => ...)] as a left-to-right fold over a state. *)
Fixpoint forEach_from {A St : Type} (f : A -> nat -> St -> St) (i : nat) (l : list A) (s : St) : St :=
  match l with
  | [] => s
  | x :: l' => forEach_from f (S i) l' (f x i s)
  end.

Definition forEach {A St : Type} (f : A -> nat -> St -> St) (l : list A) (s : St) : St :=
  forEach_from f 0 l s.

(** [l] without the first occurrence of [r]. *)
Fixpoint remove_first (r : nat) (l : list nat) : list nat :=
  match l with
  | [] => []
  | x :: l' => if bool_decide (x = r) then l' else x :: remove_first r l'
  end.

(** ** Results display *)

Module Renderer.

Definition GENRE_EMOJIS : list (string * string) :=
  [ ("blues", "🎷"); ("classical", "🎻"); ("country", "🤠"); ("disco", "🪩");
    ("hiphop", "🎤"); ("jazz", "🎹"); ("metal", "🤘"); ("pop", "🎵");
    ("reggae", "🌴"); ("rock", "🎸") ].

(** The property names the table inherits from [Object.prototype]; the
    value found under each is a function or an object, never a falsy
    value. *)
Definition inherited_keys : list string :=
  [ "constructor"; "hasOwnProperty"; "isPrototypeOf"; "propertyIsEnumerable";
    "toLocaleString"; "toString"; "valueOf"; "__proto__"; "__defineGetter__";
    "__defineSetter__"; "__lookupGetter__"; "__lookupSetter__" ].

(** A text the script shows by converting a value to a string: a string
    as it is, or whatever the browser prints for the value the table
    inherits under [key]. *)
Inductive Shown :=
| Text (s : string)
| Inherited (key : string).

(** [GENRE_EMOJIS[g] || '🎵']: the table's own entry, else the value it
    inherits under [g], else the default note. *)
Definition emoji_of (g : string) : Shown :=
  match list_find (fun kv => kv.1 = g) GENRE_EMOJIS with
  | Some (_, kv) => Text kv.2
  | None => if bool_decide (g ∈ inherited_keys) then Inherited g else Text "🎵"
  end.

(** Whether a string interpolated into markup stands for itself: it has
    none of the characters [<] and [&], which start a tag or a character
    reference, nor a NUL or a carriage return, which the parser drops or
    replaces. *)
Fixpoint plain (t : string) : bool :=
  match t with
  | EmptyString => true
  | String c t' =>
      negb (Ascii.eqb c "<" || Ascii.eqb c "&" || Ascii.eqb c "000" || Ascii.eqb c "013")
      && plain t'
  end.

(** A [div.chart-row] built by the bar chart loop: its class, its animation
    delay in seconds, the class and the width (in percent) of its
    [div.chart-bar], and the text of its [span.chart-percent].  The markup
    of its [span.chart-label] is [label_glyph], a space and [label_genre];
    [label_genre] is the genre as the template interpolates it, and the
    label shows it as text, and the row has no other [.chart-bar], when it
    is [plain]. *)
Record Row := mkRow {
  row_className : string;
  row_animationDelay : Q;
  label_glyph : Shown;
  label_genre : string;
  bar_className : string;
  bar_width : Q;
  chart_percent : string }.

(** The text of the row's [span.chart-label], where the markup set as
    [innerHTML] shows what was interpolated: the glyph is a string and the
    genre is [plain]. *)
Definition label_text (r : Row) : option string :=
  match label_glyph r with
  | Text glyph =>
      if plain (label_genre r) then Some (glyph +:+ " " +:+ label_genre r) else None
  | Inherited _ => None
  end.

(** The two nested callbacks the loop hands to [requestAnimationFrame] for
    the row element [row]: the outer one requests the inner one, which sets
    the width of the row's bar to [barPct] percent. *)
Inductive Callback :=
| Outer (row : nat) (barPct : Q)
| Inner (row : nat) (barPct : Q).

(** The results area.  Row elements live in [elements] and are referred to
    by their index, so that a callback keeps hold of its row after the row
    has left [chartBars]; [frame_callbacks] is the browser's list of
    animation frame callbacks not yet run. *)
Record State := mkState {
  resultsSection_display : string;
  genreEmoji_text : Shown;
  genreEmoji_animation : string;
  genreName_text : string;
  confidenceValue_text : string;
  ringFill_strokeDashoffset : option Q;
  ringGradient : bool;
  chartBars : list nat;
  elements : list Row;
  frame_callbacks : list Callback }.

(** The page before any result was shown: inline styles unset. *)
Definition blank : State :=
  mkState "" (Text "") "" "" "" None false [] [] [].

Definition requestAnimationFrame (cb : Callback) (s : State) : State :=
  mkState (resultsSection_display s) (genreEmoji_text s) (genreEmoji_animation s)
    (genreName_text s) (confidenceValue_text s) (ringFill_strokeDashoffset s)
    (ringGradient s) (chartBars s) (elements s) (frame_callbacks s ++ [cb]).

(** [chartBars.appendChild(row)] for a freshly created element. *)
Definition appendChild (row : Row) (s : State) : State :=
  mkState (resultsSection_display s) (genreEmoji_text s) (genreEmoji_animation s)
    (genreName_text s) (confidenceValue_text s) (ringFill_strokeDashoffset s)
    (ringGradient s) (chartBars s ++ [length (elements s)]) (elements s ++ [row])
    (frame_callbacks s).

Definition set_width (w : Q) (r : Row) : Row :=
  mkRow (row_className r) (row_animationDelay r) (label_glyph r) (label_genre r)
    (bar_className r) w (chart_percent r).

(** [row.querySelector('.chart-bar').style.width = `${barPct}%`]. *)
Definition set_bar_width (row : nat) (barPct : Q) (s : State) : State :=
  mkState (resultsSection_display s) (genreEmoji_text s) (genreEmoji_animation s)
    (genreName_text s) (confidenceValue_text s) (ringFill_strokeDashoffset s)
    (ringGradient s) (chartBars s) (alter (set_width barPct) row (elements s))
    (frame_callbacks s).

Definition circumference : Q := 2 * Num.Math_PI * 52.

(** [maxConf > 0 ? (item.confidence / maxConf) * 100 : 0]. *)
Definition barPct_of (maxConf : Q) (item : Item) : Q :=
  if Num.gtb maxConf 0 then (item_confidence item / maxConf) * 100 else 0.

(** [c * 100] where its value is rounded to an integer or printed in
    digits: [c] is the number of the JSON text, which the script holds as
    binary64, and the product is binary64 again. *)
Definition times_100 (c : Q) : Q := Num.binary64 (Num.binary64 c * 100).

(** The row as the loop body builds it, with its bar at [width: 0%]. *)
Definition new_row (item : Item) (i : nat) : Row :=
  mkRow ("chart-row" +:+ (if (i =? 0)%nat then " top" else ""))
    (inject_Z (Z.of_nat i) * 0.05)
    (emoji_of (item_genre item))
    (item_genre item)
    ("chart-bar" +:+ (if (i =? 0)%nat then " top" else ""))
    0
    (Num.toFixed1 (times_100 (item_confidence item)) +:+ "%").

(** The body of [topGenres.forEach]. *)
Definition render_item (maxConf : Q) (item : Item) (i : nat) (s : State) : State :=
  let row := length (elements s) in
  requestAnimationFrame (Outer row (barPct_of maxConf item))
    (appendChild (new_row item i) s).

(** The statements of [showResults] up to and including
    [chartBars.innerHTML = '']. *)
Definition render_main (data : Data) (s : State) : State :=
  mkState "block"
    (emoji_of (genre data))
    "bounceIn 0.5s ease"
    (genre data)
    (Num.String_of_Z (Num.Math_round (times_100 (confidence data))))
    (Some (circumference * (1 - confidence data)))
    (if ringGradient s then ringGradient s else true)
    []
    (elements s)
    (frame_callbacks s).

Definition showResults (data : Data) (s : State) : State :=
  let topGenres := default [] (top_genres data) in
  let maxConf :=
    match topGenres with
    | first :: _ => item_confidence first
    | [] => 1
    end in
  forEach (render_item maxConf) topGenres (render_main data s).

Definition run_callback (s : State) (cb : Callback) : State :=
  match cb with
  | Outer row barPct => requestAnimationFrame (Inner row barPct) s
  | Inner row barPct => set_bar_width row barPct s
  end.

(** One animation frame: the callbacks requested before the frame run in
    the order they were requested; what they request waits for the next
    frame. *)
Definition animation_frame (s : State) : State :=
  foldl run_callback
    (mkState (resultsSection_display s) (genreEmoji_text s) (genreEmoji_animation s)
       (genreName_text s) (confidenceValue_text s) (ringFill_strokeDashoffset s)
       (ringGradient s) (chartBars s) (elements s) [])
    (frame_callbacks s).

(** The rows the chart shows, top to bottom. *)
Definition displayed_rows (s : State) : list Row :=
  omap (fun row => elements s !! row) (chartBars s).

Definition bar_widths (s : State) : list Q := bar_width <$> displayed_rows s.

(** What the results area displays. *)
Record View := mkView {
  view_display : string;
  view_emoji : Shown;
  view_animation : string;
  view_name : string;
  view_confidence : string;
  view_offset : option Q;
  view_gradient : bool;
  view_rows : list Row }.

Definition view (s : State) : View :=
  mkView (resultsSection_display s) (genreEmoji_text s) (genreEmoji_animation s)
    (genreName_text s) (confidenceValue_text s) (ringFill_strokeDashoffset s)
    (ringGradient s) (displayed_rows s).

(** The row element a callback holds. *)
Definition target (cb : Callback) : nat :=
  match cb with
  | Outer row _ | Inner row _ => row
  end.

(** Every pending callback holds a row element that exists. *)
Definition wf (s : State) : Prop :=
  Forall (fun cb => (target cb < length (elements s))%nat) (frame_callbacks s).

(** [n] animation frames in a row. *)
Fixpoint frames (n : nat) (s : State) : State :=
  match n with
  | O => s
  | S n' => frames n' (animation_frame s)
  end.

(** The rows the loop creates for [items], the first at index [i]. *)
Fixpoint rows_from (i : nat) (items : list Item) : list Row :=
  match items with
  | [] => []
  | item :: items' => new_row item i :: rows_from (S i) items'
  end.

(** The same rows once their bars have been given their widths. *)
Fixpoint painted_from (maxConf : Q) (i : nat) (items : list Item) : list Row :=
  match items with
  | [] => []
  | item :: items' =>
      set_width (barPct_of maxConf item) (new_row item i) :: painted_from maxConf (S i) items'
  end.

(** The callbacks the loop requests for [items], the first row being the
    element [row]; [k] is [Outer] or [Inner]. *)
Fixpoint callbacks_from (k : nat -> Q -> Callback) (maxConf : Q) (row : nat) (items : list Item)
  : list Callback :=
  match items with
  | [] => []
  | item :: items' => k row (barPct_of maxConf item) :: callbacks_from k maxConf (S row) items'
  end.

(** What a callback leaves for the next frame, and what it does to the
    elements. *)
Definition promote (cb : Callback) : option Callback :=
  match cb with
  | Outer row barPct => Some (Inner row barPct)
  | Inner _ _ => None
  end.

Definition paint (els : list Row) (cb : Callback) : list Row :=
  match cb with
  | Outer _ _ => els
  | Inner row barPct => alter (set_width barPct) row els
  end.

(** [maxConf] as [showResults] computes it. *)
Definition maxConf_of (items : list Item) : Q :=
  match items with
  | first :: _ => item_confidence first
  | [] => 1
  end.

(** The rows on display [n] frames after [showResults] was given [items]:
    the bars take their widths in the second frame. *)
Definition rendered_rows (items : list Item) (n : nat) : list Row :=
  if (n <? 2)%nat then rows_from 0 items
  else painted_from (maxConf_of items) 0 items.

(** What the results area displays [n] frames after [showResults] was
    given [data], as a function of [data] and [n] alone. *)
Definition rendered (data : Data) (n : nat) : View :=
  mkView "block" (emoji_of (genre data)) "bounceIn 0.5s ease" (genre data)
    (Num.String_of_Z (Num.Math_round (times_100 (confidence data))))
    (Some (circumference * (1 - confidence data)))
    true
    (rendered_rows (default [] (top_genres data)) n).

Definition confidences (items : list Item) : list Q := item_confidence <$> items.

(** The highest number of a list ([0] for the empty list). *)
Definition highest (l : list Q) : Q :=
  match l with
  | [] => 0
  | c :: l' => foldl (fun m c' => if Num.gtb c' m then c' else m) c l'
  end.

(** [top_genres] as the service promises it: ordered by descending
    confidence. *)
Definition descending (l : list Q) : Prop := Sorted (fun a b => b <= a) l.

End Renderer.

(** The prediction of the specification's examples: confidence 0.87 and
    three genres at 0.6, 0.3 and 0.1. *)
Definition example_data : Data :=
  mkData "rock" 0.87 (Some [mkItem "rock" 0.6; mkItem "pop" 0.3; mkItem "jazz" 0.1]) None.

(** A prediction whose first genre has confidence 0. *)
Definition flat_data : Data :=
  mkData "rock" 0 (Some [mkItem "rock" 0; mkItem "pop" 0.5]) None.

(** A prediction as the service answers it, and an answer with a status
    that is not a success. *)
Definition example_success : Fetch := Resolved (mkResponse true (Some example_data)).

Definition example_failure : Fetch :=
  Resolved (mkResponse false (Some (mkData "" 0 None (Some "Unsupported audio format")))).

(** A prediction without [top_genres]. *)
Definition bare_data : Data := mkData "rock" 0.87 None None.

(** ** Error notification *)

Module Notifier.

(** The toast, and the delays (in milliseconds) left until each pending
    [setTimeout] callback of [showError] runs. *)
Record State := mkState {
  errorMessage_text : string;
  errorToast_display : string;
  errorToast_animation : string;
  timeouts : list Z }.

Definition blank : State := mkState "" "" "" [].

Definition showError (msg : string) (s : State) : State :=
  mkState msg "flex" "toastIn 0.4s ease" (timeouts s ++ [6000%Z]).

(** The callback [showError] passes to [setTimeout]. *)
Definition timeout_callback (s : State) : State :=
  mkState (errorMessage_text s) "none" (errorToast_animation s) (timeouts s).

(** The click handler of [errorClose]. *)
Definition errorClose_click (s : State) : State :=
  mkState (errorMessage_text s) "none" (errorToast_animation s) (timeouts s).

(** [ms] milliseconds pass: every timeout that is due runs its callback and
    is gone; the others have [ms] less to wait. *)
Definition elapse (ms : Z) (s : State) : State :=
  let left := (fun t => t - ms)%Z <$> timeouts s in
  foldl (fun s' _ => timeout_callback s')
    (mkState (errorMessage_text s) (errorToast_display s) (errorToast_animation s)
       (filter (fun t => 0 < t)%Z left))
    (filter (fun t => t <= 0)%Z left).

End Notifier.

(** ** Health check *)

Module Health.

(** The status badge: whether it carries the class [online], and the text
    of its [.status-text]. *)
Record State := mkState { statusBadge_online : bool; status_text : string }.

(** One run of [checkHealth], resumed with the way its [fetch] settled. *)
Definition checkHealth (r : Fetch) (s : State) : State :=
  match r with
  | Resolved res => if ok res then mkState true "Online" else s
  | Rejected => mkState false "Offline"
  end.

End Health.

(** ** Buttons that show a loading state *)

Record Button := mkButton { disabled : bool; loading : bool; btn_text : string }.

Definition setLoading (isLoading : bool) (btn : Button) : Button :=
  if isLoading then mkButton true true (btn_text btn)
  else mkButton false false (btn_text btn).

Definition set_text (t : string) (btn : Button) : Button :=
  mkButton (disabled btn) (loading btn) t.

(** ** File upload *)

Module Upload.

Record File := mkFile { name : string; size : Z }.

Record State := mkState {
  selectedFile : option File;
  fileInput_files : list File;
  fileName_text : string;
  fileSize_text : string;
  fileInfo_display : string;
  dropZone_display : string;
  dropZone_drag_over : bool;
  btnPredict : Button }.

Definition formatBytes (bytes : Z) : string :=
  if (bytes <? 1024)%Z then Num.String_of_Z bytes +:+ " B"
  else if (bytes <? 1048576)%Z then Num.toFixed1 (inject_Z bytes / 1024) +:+ " KB"
  else Num.toFixed1 (inject_Z bytes / 1048576) +:+ " MB".

Definition handleFile (file : File) (s : State) : State :=
  mkState (Some file) (fileInput_files s) (name file) (formatBytes (size file))
    "flex" "none" (dropZone_drag_over s)
    (mkButton false (loading (btnPredict s)) (btn_text (btnPredict s))).

Definition set_drag_over (b : bool) (s : State) : State :=
  mkState (selectedFile s) (fileInput_files s) (fileName_text s) (fileSize_text s)
    (fileInfo_display s) (dropZone_display s) b (btnPredict s).

Definition dropZone_dragover (s : State) : State := set_drag_over true s.

Definition dropZone_dragleave (s : State) : State := set_drag_over false s.

(** The [drop] handler; [files] is [e.dataTransfer.files]. *)
Definition dropZone_drop (files : list File) (s : State) : State :=
  let s := set_drag_over false s in
  match files with
  | file :: _ => handleFile file s
  | [] => s
  end.

(** The [change] handler of the file input, whose [files] the browser has
    set to the user's choice. *)
Definition fileInput_change (files : list File) (s : State) : State :=
  let s := mkState (selectedFile s) files (fileName_text s) (fileSize_text s)
             (fileInfo_display s) (dropZone_display s) (dropZone_drag_over s)
             (btnPredict s) in
  match fileInput_files s with
  | file :: _ => handleFile file s
  | [] => s
  end.

(** The click handler of [fileRemove]; [fileInput.value = ''] empties the
    input's file list. *)
Definition fileRemove_click (s : State) : State :=
  mkState None [] (fileName_text s) (fileSize_text s) "none" "block"
    (dropZone_drag_over s)
    (mkButton true (loading (btnPredict s)) (btn_text (btnPredict s))).

Definition with_btnPredict (f : Button -> Button) (s : State) : State :=
  mkState (selectedFile s) (fileInput_files s) (fileName_text s) (fileSize_text s)
    (fileInfo_display s) (dropZone_display s) (dropZone_drag_over s) (f (btnPredict s)).

End Upload.

(** ** Microphone recording *)

Module Mic.

(** [MediaRecorder.state]; the script never pauses a recorder. *)
Inductive RecordingState := inactive | recording.

(** A [MediaRecorder]: the stream it records and its state. *)
Record Recorder := mkRecorder { rec_stream : nat; rec_state : RecordingState }.

(** The module variables of the recording code.  Streams, recorders and
    audio contexts are named by their index in [Devices] below.  The
    elapsed-seconds interval and the waveform painting loop write only the
    timer text and the canvas and are left out. *)
Record Vars := mkVars {
  mediaRecorder : option nat;
  audioStream : option nat;
  audioContext : option nat }.

(** The recording panel of the page. *)
Record Panel := mkPanel {
  btnRecord_recording : bool;
  recordLabel_text : string;
  recordTimer_display : string;
  timerText_text : string;
  waveCanvas_display : string }.

(** The browser's side: for every stream [getUserMedia] has returned,
    whether its tracks are live; the recorders constructed; for every
    [AudioContext] constructed, whether it is still open; the streams on
    whose tracks [stop()] was called and the contexts on which [close()]
    was called, call by call. *)
Record Devices := mkDevices {
  streams : list bool;
  recorders : list Recorder;
  contexts : list bool;
  track_stops : list nat;
  context_closes : list nat }.

(** What is suspended or queued: runs of [startRecording] waiting for
    [getUserMedia], [stop] events the browser has queued for recorders, and
    runs of the [onstop] handler waiting for their [fetch]. *)
Record Pending := mkPending {
  getUserMedia_pending : nat;
  stop_events : list nat;
  uploads_pending : nat }.

Record State := mkState {
  vars : Vars;
  panel : Panel;
  devices : Devices;
  pending : Pending }.

Definition initial : State :=
  mkState (mkVars None None None) (mkPanel false "" "" "" "")
    (mkDevices [] [] [] [] []) (mkPending 0 [] 0).

(** [mediaRecorder && mediaRecorder.state === 'recording']. *)
Definition is_recording (s : State) : bool :=
  match mediaRecorder (vars s) with
  | Some r =>
      match recorders (devices s) !! r with
      | Some (mkRecorder _ recording) => true
      | _ => false
      end
  | None => false
  end.

(** Whether [r] is recording stream [sid]. *)
Definition records (sid : nat) (r : Recorder) : bool :=
  match rec_state r with
  | recording => bool_decide (rec_stream r = sid)
  | inactive => false
  end.

(** The recorders that are recording stream [sid]. *)
Definition recording_on (sid : nat) (rs : list Recorder) : list nat :=
  (fun p => p.1) <$> filter (fun p => records sid p.2 = true) (imap (fun i r => (i, r)) rs).

Definition halt (sid : nat) (r : Recorder) : Recorder :=
  if records sid r then mkRecorder (rec_stream r) inactive else r.

(** The tracks of stream [sid] end: a recorder that records it goes
    inactive and the browser queues its [stop] event. *)
Definition end_tracks (sid : nat) (s : State) : State :=
  let d := devices s in
  mkState (vars s) (panel s)
    (mkDevices (<[sid := false]> (streams d)) (halt sid <$> recorders d) (contexts d)
       (track_stops d) (context_closes d))
    (mkPending (getUserMedia_pending (pending s))
       (stop_events (pending s) ++ recording_on sid (recorders d))
       (uploads_pending (pending s))).

(** [mediaRecorder.stop()] on the recorder [r], which is recording. *)
Definition recorder_stop (r : nat) (s : State) : State :=
  let d := devices s in
  mkState (vars s) (panel s)
    (mkDevices (streams d) (alter (fun x => mkRecorder (rec_stream x) inactive) r (recorders d))
       (contexts d) (track_stops d) (context_closes d))
    (mkPending (getUserMedia_pending (pending s)) (stop_events (pending s) ++ [r])
       (uploads_pending (pending s))).

Definition stopRecording (s : State) : State :=
  match mediaRecorder (vars s) with
  | Some r => if is_recording s then recorder_stop r s else s
  | None => s
  end.

(** [audioStream.getTracks().forEach(t => t.stop())]. *)
Definition stop_tracks (sid : nat) (s : State) : State :=
  let s := end_tracks sid s in
  let d := devices s in
  mkState (vars s) (panel s)
    (mkDevices (streams d) (recorders d) (contexts d) (track_stops d ++ [sid])
       (context_closes d))
    (pending s).

(** [audioContext.close()]. *)
Definition close_context (cid : nat) (s : State) : State :=
  let d := devices s in
  mkState (vars s) (panel s)
    (mkDevices (streams d) (recorders d) (<[cid := false]> (contexts d)) (track_stops d)
       (context_closes d ++ [cid]))
    (pending s).

Definition with_vars (v : Vars) (s : State) : State :=
  mkState v (panel s) (devices s) (pending s).

Definition with_panel (p : Panel) (s : State) : State :=
  mkState (vars s) p (devices s) (pending s).

Definition with_pending (p : Pending) (s : State) : State :=
  mkState (vars s) (panel s) (devices s) p.

Definition cleanupAudio (s : State) : State :=
  let s :=
    match audioStream (vars s) with
    | Some sid =>
        let s := stop_tracks sid s in
        with_vars (mkVars (mediaRecorder (vars s)) None (audioContext (vars s))) s
    | None => s
    end in
  match audioContext (vars s) with
  | Some cid =>
      let s := close_context cid s in
      with_vars (mkVars (mediaRecorder (vars s)) (audioStream (vars s)) None) s
  | None => s
  end.

(** [audioStream = await navigator.mediaDevices.getUserMedia(...)] when the
    promise resolves: the browser hands out a new live stream. *)
Definition acquire_stream (s : State) : State :=
  let d := devices s in
  let sid := length (streams d) in
  mkState (mkVars (mediaRecorder (vars s)) (Some sid) (audioContext (vars s))) (panel s)
    (mkDevices (streams d ++ [true]) (recorders d) (contexts d) (track_stops d)
       (context_closes d))
    (pending s).

(** [mediaRecorder = new MediaRecorder(audioStream)]: the recorder is
    constructed inactive. *)
Definition new_recorder (sid : nat) (s : State) : State :=
  let d := devices s in
  let r := length (recorders d) in
  mkState (mkVars (Some r) (audioStream (vars s)) (audioContext (vars s))) (panel s)
    (mkDevices (streams d) (recorders d ++ [mkRecorder sid inactive]) (contexts d)
       (track_stops d) (context_closes d))
    (pending s).

(** [mediaRecorder = new MediaRecorder(audioStream)] followed, after the
    handlers are set, by [mediaRecorder.start()]. *)
Definition new_recorder_start (sid : nat) (s : State) : State :=
  let d := devices s in
  let r := length (recorders d) in
  mkState (mkVars (Some r) (audioStream (vars s)) (audioContext (vars s))) (panel s)
    (mkDevices (streams d) (recorders d ++ [mkRecorder sid recording]) (contexts d)
       (track_stops d) (context_closes d))
    (pending s).

(** [startWaveform(audioStream)]: a new audio context, and the canvas is
    shown. *)
Definition startWaveform (s : State) : State :=
  let d := devices s in
  let p := panel s in
  let cid := length (contexts d) in
  mkState (mkVars (mediaRecorder (vars s)) (audioStream (vars s)) (Some cid))
    (mkPanel (btnRecord_recording p) (recordLabel_text p) (recordTimer_display p)
       (timerText_text p) "block")
    (mkDevices (streams d) (recorders d) (contexts d ++ [true]) (track_stops d)
       (context_closes d))
    (pending s).

(** The streams whose tracks are live. *)
Definition live_streams (s : State) : list nat :=
  (fun p => p.1) <$> filter (fun p => p.2 = true) (imap (fun i b => (i, b)) (streams (devices s))).

(** The audio contexts that are open. *)
Definition open_contexts (s : State) : list nat :=
  (fun p => p.1) <$> filter (fun p => p.2 = true) (imap (fun i b => (i, b)) (contexts (devices s))).

(** How often [stop()] was called on the tracks of stream [sid], and
    [close()] on context [cid]. *)
Definition times_stopped (sid : nat) (s : State) : nat :=
  length (filter (fun x => x = sid) (track_stops (devices s))).

Definition times_closed (cid : nat) (s : State) : nat :=
  length (filter (fun x => x = cid) (context_closes (devices s))).

(** Nothing of the recording code is suspended or queued. *)
Definition settled (s : State) : Prop :=
  getUserMedia_pending (pending s) = 0%nat /\
  stop_events (pending s) = [] /\
  uploads_pending (pending s) = 0%nat.

End Mic.

(** ** The page: handlers that cross components *)

Module App.

(** The calls made to the results renderer and to the error notifier, in
    order (kept beside the page state to state which of them a handler
    calls). *)
Inductive Call :=
| CallShowResults (data : Data)
| CallShowError (msg : string).

Record SystemPanel := mkSystemPanel {
  durationSlider_value : Z;
  durationValue_text : string;
  btnSystem : Button }.

Record State := mkState {
  badge : Health.State;
  upload : Upload.State;
  mic : Mic.State;
  system : SystemPanel;
  results : Renderer.State;
  toast : Notifier.State;
  predict_pending : nat;
  system_pending : nat;
  calls : list Call }.

(** The page once the script has run its top level: module variables as
    initialised there; texts and inline styles empty, the predict button
    disabled and the slider at 5, standing in for markup that is not part
    of the script. *)
Definition initial : State :=
  mkState (Health.mkState false "")
    (Upload.mkState None [] "" "" "" "" false (mkButton true false ""))
    Mic.initial
    (mkSystemPanel 5 "" (mkButton false false ""))
    Renderer.blank Notifier.blank 0 0 [].

Definition with_badge (b : Health.State) (a : State) : State :=
  mkState b (upload a) (mic a) (system a) (results a) (toast a)
    (predict_pending a) (system_pending a) (calls a).

Definition with_upload (u : Upload.State) (a : State) : State :=
  mkState (badge a) u (mic a) (system a) (results a) (toast a)
    (predict_pending a) (system_pending a) (calls a).

Definition with_mic (m : Mic.State) (a : State) : State :=
  mkState (badge a) (upload a) m (system a) (results a) (toast a)
    (predict_pending a) (system_pending a) (calls a).

Definition with_system (y : SystemPanel) (a : State) : State :=
  mkState (badge a) (upload a) (mic a) y (results a) (toast a)
    (predict_pending a) (system_pending a) (calls a).

Definition with_results (r : Renderer.State) (a : State) : State :=
  mkState (badge a) (upload a) (mic a) (system a) r (toast a)
    (predict_pending a) (system_pending a) (calls a).

Definition with_toast (t : Notifier.State) (a : State) : State :=
  mkState (badge a) (upload a) (mic a) (system a) (results a) t
    (predict_pending a) (system_pending a) (calls a).

Definition with_predict_pending (n : nat) (a : State) : State :=
  mkState (badge a) (upload a) (mic a) (system a) (results a) (toast a)
    n (system_pending a) (calls a).

Definition with_system_pending (n : nat) (a : State) : State :=
  mkState (badge a) (upload a) (mic a) (system a) (results a) (toast a)
    (predict_pending a) n (calls a).

Definition log (c : Call) (a : State) : State :=
  mkState (badge a) (upload a) (mic a) (system a) (results a) (toast a)
    (predict_pending a) (system_pending a) (calls a ++ [c]).

Definition showResults (data : Data) (a : State) : State :=
  with_results (Renderer.showResults data (results a)) (log (CallShowResults data) a).

Definition showError (msg : string) (a : State) : State :=
  with_toast (Notifier.showError msg (toast a)) (log (CallShowError msg) a).

(** [data.error || fallback]. *)
Definition error_or (fallback : string) (data : Data) : string :=
  match error data with
  | Some e => if bool_decide (e = "") then fallback else e
  | None => fallback
  end.

(** The [try { res = await fetch(..); data = await res.json();
    if (res.ok) showResults(data) else showError(data.error || fallback) }
    catch { showError(unreachable) }] block the three prediction handlers
    share, resumed with the way the [fetch] settled. *)
Definition respond (fallback unreachable : string) (r : Fetch) (a : State) : State :=
  match r with
  | Rejected => showError unreachable a
  | Resolved res =>
      match json res with
      | None => showError unreachable a
      | Some data =>
          if ok res then showResults data a
          else showError (error_or fallback data) a
      end
  end.

(** *** File upload *)

(** The click handler of [btnPredict] up to its [fetch]. *)
Definition btnPredict_click (a : State) : State :=
  match Upload.selectedFile (upload a) with
  | None => a
  | Some _ =>
      with_predict_pending (S (predict_pending a))
        (with_upload (Upload.with_btnPredict (setLoading true) (upload a)) a)
  end.

(** The rest of that handler, once the [fetch] to [/predict] has settled. *)
Definition btnPredict_resume (r : Fetch) (a : State) : State :=
  let a := respond "Prediction failed" "Could not reach the server. Is it running?" r a in
  with_predict_pending (pred (predict_pending a))
    (with_upload (Upload.with_btnPredict (setLoading false) (upload a)) a).

(** *** System audio *)

Definition durationSlider_input (v : Z) (a : State) : State :=
  with_system (mkSystemPanel v (Num.String_of_Z v +:+ "s") (btnSystem (system a))) a.

(** The click handler of [btnSystem] up to its [fetch]. *)
Definition btnSystem_click (a : State) : State :=
  let y := system a in
  let duration := durationSlider_value y in
  with_system_pending (S (system_pending a))
    (with_system
       (mkSystemPanel (durationSlider_value y) (durationValue_text y)
          (set_text ("Listening for " +:+ Num.String_of_Z duration +:+ "s...")
             (setLoading true (btnSystem y))))
       a).

(** The rest of that handler, once the [fetch] to [/predict/system] has
    settled. *)
Definition btnSystem_resume (r : Fetch) (a : State) : State :=
  let a := respond "System audio capture failed" "Could not reach the server. Is it running?" r a in
  let y := system a in
  with_system_pending (pred (system_pending a))
    (with_system
       (mkSystemPanel (durationSlider_value y) (durationValue_text y)
          (set_text "Start Listening" (setLoading false (btnSystem y))))
       a).

(** *** Microphone *)

(** How the [try] block of [startRecording] goes on after [getUserMedia]:
    the promise rejects ([Denied]); it resolves with a stream and
    constructing the recorder throws ([Granted false]); the recorder is
    constructed and its [start()] throws ([StartThrows]); the recording is
    started and constructing the audio context of [startWaveform] throws
    ([WaveformThrows]); or the block runs to its end ([Granted true]). *)
Inductive MicOutcome :=
| Denied
| Granted (recorder_ok : bool)
| StartThrows
| WaveformThrows.

(** [startRecording] up to its [await]. *)
Definition startRecording (a : State) : State :=
  let p := Mic.pending (mic a) in
  with_mic
    (Mic.with_pending
       (Mic.mkPending (S (Mic.getUserMedia_pending p)) (Mic.stop_events p)
          (Mic.uploads_pending p))
       (mic a))
    a.

(** The click handler of [btnRecord]. *)
Definition btnRecord_click (a : State) : State :=
  if Mic.is_recording (mic a) then with_mic (Mic.stopRecording (mic a)) a
  else startRecording a.

(** The statements of [startRecording] after [mediaRecorder.start()]. *)
Definition recording_started (m : Mic.State) : Mic.State :=
  let p := Mic.panel m in
  Mic.startWaveform
    (Mic.with_panel
       (Mic.mkPanel true "Recording... click to stop" "flex" "00:00"
          (Mic.waveCanvas_display p))
       m).

(** The statements of [startRecording] after [mediaRecorder.start()] and
    before [startWaveform]. *)
Definition recording_shown (m : Mic.State) : Mic.State :=
  let p := Mic.panel m in
  Mic.with_panel
    (Mic.mkPanel true "Recording... click to stop" "flex" "00:00"
       (Mic.waveCanvas_display p))
    m.

(** The rest of [startRecording], once [getUserMedia] has settled. *)
Definition startRecording_resume (o : MicOutcome) (a : State) : State :=
  let p := Mic.pending (mic a) in
  let a :=
    with_mic
      (Mic.with_pending
         (Mic.mkPending (pred (Mic.getUserMedia_pending p)) (Mic.stop_events p)
            (Mic.uploads_pending p))
         (mic a))
      a in
  match o with
  | Denied => showError "Microphone access denied. Please allow microphone access." a
  | Granted recorder_ok =>
      let sid := length (Mic.streams (Mic.devices (mic a))) in
      let a := with_mic (Mic.acquire_stream (mic a)) a in
      if recorder_ok
      then with_mic (recording_started (Mic.new_recorder_start sid (mic a))) a
      else showError "Microphone access denied. Please allow microphone access." a
  | StartThrows =>
      let sid := length (Mic.streams (Mic.devices (mic a))) in
      let a := with_mic (Mic.acquire_stream (mic a)) a in
      let a := with_mic (Mic.new_recorder sid (mic a)) a in
      showError "Microphone access denied. Please allow microphone access." a
  | WaveformThrows =>
      let sid := length (Mic.streams (Mic.devices (mic a))) in
      let a := with_mic (Mic.acquire_stream (mic a)) a in
      let a := with_mic (recording_shown (Mic.new_recorder_start sid (mic a))) a in
      showError "Microphone access denied. Please allow microphone access." a
  end.

(** The [onstop] handler up to its [fetch]. *)
Definition onstop (a : State) : State :=
  let m := mic a in
  let p := Mic.pending m in
  with_mic
    (Mic.with_pending
       (Mic.mkPending (Mic.getUserMedia_pending p) (Mic.stop_events p)
          (S (Mic.uploads_pending p)))
       (Mic.with_panel
          (Mic.mkPanel false "Processing..." "none" (Mic.timerText_text (Mic.panel m)) "none")
          m))
    a.

(** The rest of the [onstop] handler, once the [fetch] to
    [/predict/record] has settled. *)
Definition onstop_resume (r : Fetch) (a : State) : State :=
  let a := respond "Prediction failed" "Could not reach the server." r a in
  let m := mic a in
  let p := Mic.panel m in
  let q := Mic.pending m in
  with_mic
    (Mic.cleanupAudio
       (Mic.with_pending
          (Mic.mkPending (Mic.getUserMedia_pending q) (Mic.stop_events q)
             (pred (Mic.uploads_pending q)))
          (Mic.with_panel
             (Mic.mkPanel (Mic.btnRecord_recording p) "Click to start recording"
                (Mic.recordTimer_display p) (Mic.timerText_text p) (Mic.waveCanvas_display p))
             m)))
    a.

(** The browser delivers the [stop] event queued for recorder [r]. *)
Definition deliver_stop (r : nat) (a : State) : State :=
  let m := mic a in
  let p := Mic.pending m in
  onstop
    (with_mic
       (Mic.with_pending
          (Mic.mkPending (Mic.getUserMedia_pending p) (remove_first r (Mic.stop_events p))
             (Mic.uploads_pending p))
          m)
       a).

(** *** The event loop *)

(** What the browser can run next: a user action, the settling of an
    awaited operation, a queued event, an animation frame, or the passing
    of time. *)
Inductive Event :=
| HealthChecked (r : Fetch)
| DragOver
| DragLeave
| Drop (files : list Upload.File)
| FilePicked (files : list Upload.File)
| FileRemoveClick
| PredictClick
| PredictSettled (r : Fetch)
| SliderInput (v : Z)
| SystemClick
| SystemSettled (r : Fetch)
| RecordClick
| GetUserMediaSettled (o : MicOutcome)
| StopEvent (r : nat)
| TracksEnded (sid : nat)
| UploadSettled (r : Fetch)
| AnimationFrame
| ErrorCloseClick
| Elapse (ms : Z).

(** One turn of the event loop; [None] when the event cannot occur in the
    state (a click on a disabled button, a settlement nothing waits for). *)
Definition step (e : Event) (a : State) : option State :=
  match e with
  | HealthChecked r => Some (with_badge (Health.checkHealth r (badge a)) a)
  | DragOver => Some (with_upload (Upload.dropZone_dragover (upload a)) a)
  | DragLeave => Some (with_upload (Upload.dropZone_dragleave (upload a)) a)
  | Drop files => Some (with_upload (Upload.dropZone_drop files (upload a)) a)
  | FilePicked files => Some (with_upload (Upload.fileInput_change files (upload a)) a)
  | FileRemoveClick => Some (with_upload (Upload.fileRemove_click (upload a)) a)
  | PredictClick =>
      if disabled (Upload.btnPredict (upload a)) then None else Some (btnPredict_click a)
  | PredictSettled r =>
      if bool_decide (0 < predict_pending a)%nat then Some (btnPredict_resume r a) else None
  | SliderInput v => Some (durationSlider_input v a)
  | SystemClick =>
      if disabled (btnSystem (system a)) then None else Some (btnSystem_click a)
  | SystemSettled r =>
      if bool_decide (0 < system_pending a)%nat then Some (btnSystem_resume r a) else None
  | RecordClick => Some (btnRecord_click a)
  | GetUserMediaSettled o =>
      if bool_decide (0 < Mic.getUserMedia_pending (Mic.pending (mic a)))%nat
      then Some (startRecording_resume o a) else None
  | StopEvent r =>
      if bool_decide (r ∈ Mic.stop_events (Mic.pending (mic a)))
      then Some (deliver_stop r a) else None
  | TracksEnded sid =>
      if bool_decide (Mic.streams (Mic.devices (mic a)) !! sid = Some true)
      then Some (with_mic (Mic.end_tracks sid (mic a)) a) else None
  | UploadSettled r =>
      if bool_decide (0 < Mic.uploads_pending (Mic.pending (mic a)))%nat
      then Some (onstop_resume r a) else None
  | AnimationFrame => Some (with_results (Renderer.animation_frame (results a)) a)
  | ErrorCloseClick => Some (with_toast (Notifier.errorClose_click (toast a)) a)
  | Elapse ms =>
      if bool_decide (0 <= ms)%Z then Some (with_toast (Notifier.elapse ms (toast a)) a)
      else None
  end.

(** The settlements that report a network error to one of the three
    prediction requests. *)
Definition network_errors : list Event :=
  [PredictSettled Rejected; UploadSettled Rejected; SystemSettled Rejected].

(** A run of the event loop. *)
Definition run (es : list Event) (a : State) : option State :=
  foldl (fun o e => o ≫= step e) (Some a) es.

End App.

(** ** Tab switching *)

Module Tabs.

(** A [.mode-tab] with its [data-mode] ([None] when it has none), and an
    element of the document with its id, whether it is an [.input-panel],
    and whether it has the class [active]. *)
Record Tab := mkTab { mode : option string; tab_active : bool }.

Record Node := mkNode { node_id : string; input_panel : bool; node_active : bool }.

Record State := mkState { modeTabs : list Tab; document : list Node }.

(** [c.toUpperCase()] for a character of the ASCII range. *)
Definition toUpperCase (c : ascii) : ascii :=
  let n := nat_of_ascii c in
  if ((97 <=? n) && (n <=? 122))%nat then ascii_of_nat (n - 32) else c.

(** [mode.charAt(0).toUpperCase() + mode.slice(1)]. *)
Definition capitalize (m : string) : string :=
  match m with
  | EmptyString => EmptyString
  | String c m' => String (toUpperCase c) m'
  end.

(** Whether a [data-mode] is made of ASCII letters, digits, [-] and [_]
    only.  The selector the handler builds from such a mode is the id
    selector of the id it spells, and upper-casing its first character is
    upper-casing an ASCII letter or nothing. *)
Definition name_char (c : ascii) : bool :=
  let n := nat_of_ascii c in
  (((48 <=? n) && (n <=? 57)) || ((65 <=? n) && (n <=? 90)) || ((97 <=? n) && (n <=? 122))
   || (n =? 45) || (n =? 95))%nat.

Fixpoint plain_mode (m : string) : bool :=
  match m with
  | EmptyString => true
  | String c m' => name_char c && plain_mode m'
  end.

(** [document.querySelector('#' + id)] for an id selector: the first
    element with that id, ids being compared as they are spelt (the document
    is not in quirks mode). *)
Definition querySelector (id : string) (doc : list Node) : option nat :=
  fst <$> list_find (fun n => node_id n = id) doc.

Definition deactivate_tab (t : Tab) : Tab := mkTab (mode t) false.

Definition activate_tab (t : Tab) : Tab := mkTab (mode t) true.

Definition deactivate_panel (n : Node) : Node :=
  if input_panel n then mkNode (node_id n) (input_panel n) false else n.

Definition activate_node (n : Node) : Node := mkNode (node_id n) (input_panel n) true.

(** The click handler of the tab at index [i]; there is no such handler
    for an index without a tab.  The last statement throws when the tab has
    no [data-mode] ([mode.charAt] of [undefined]) and when no element has
    the id looked up: the state is then the one the statements before it
    have left, and the flag is [false].  A selector built from a mode that
    is not [plain_mode] is not an id selector and is not modelled
    ([None]). *)
Definition tab_click (i : nat) (s : State) : option (State * bool) :=
  match modeTabs s !! i with
  | None => None
  | Some tab =>
      let tabs := alter activate_tab i (deactivate_tab <$> modeTabs s) in
      let doc := deactivate_panel <$> document s in
      match mode tab with
      | None => Some (mkState tabs doc, false)
      | Some m =>
          if plain_mode m then
            match querySelector ("panel" +:+ capitalize m) doc with
            | Some p => Some (mkState tabs (alter activate_node p doc), true)
            | None => Some (mkState tabs doc, false)
            end
          else None
      end
  end.

End Tabs.

(** ** Recorded audio *)

Module Chunks.

(** [audioChunks]: the data of the [dataavailable] events kept so far. *)
Definition ondataavailable (audioChunks : list (list Byte.byte)) (data : list Byte.byte)
  : list (list Byte.byte) :=
  if (0 <? length data)%nat then audioChunks ++ [data] else audioChunks.

(** The bytes of [new Blob(audioChunks)]. *)
Definition Blob (audioChunks : list (list Byte.byte)) : list Byte.byte := concat audioChunks.

(** [audioChunks] when the recorder stops, having been emptied by
    [startRecording] and then given the data of [events] in turn. *)
Definition recorded (events : list (list Byte.byte)) : list (list Byte.byte) :=
  foldl ondataavailable [] events.

End Chunks.

(** ** Elapsed time of a recording *)

Module Timer.

Record State := mkState { recordSeconds : nat; timerText_text : string }.

(** [t.padStart(2, '0')]. *)
Definition padStart2 (t : string) : string :=
  match String.length t with
  | 0%nat => "00"
  | 1%nat => "0" +:+ t
  | _ => t
  end.

(** [recordSeconds = 0; timerText.textContent = '00:00'] of
    [startRecording]. *)
Definition reset : State := mkState 0 "00:00".

(** The callback [startRecording] gives to [setInterval]. *)
Definition tick (s : State) : State :=
  let n := S (recordSeconds s) in
  let m := padStart2 (Num.String_of_Z (Z.of_nat (n / 60))) in
  let sec := padStart2 (Num.String_of_Z (Z.of_nat (n mod 60))) in
  mkState n (m +:+ ":" +:+ sec).

(** The timer [k] seconds into a recording. *)
Definition after (k : nat) : State := Nat.iter k tick reset.

(** The number a decimal digit stands for. *)
Definition digit (c : ascii) : nat := nat_of_ascii c - 48.

(** The seconds a text of the form [mm:ss] stands for. *)
Definition read (t : string) : option nat :=
  match t with
  | String a (String b (String ":"%char (String c (String d EmptyString)))) =>
      Some ((digit a * 10 + digit b) * 60 + (digit c * 10 + digit d))%nat
  | _ => None
  end.

(** Whether the two-character rendering of [k] reads back as [k]. *)
Definition two_digits (k : nat) : bool :=
  match padStart2 (Num.String_of_Z (Z.of_nat k)) with
  | String a (String b EmptyString) => (digit a * 10 + digit b =? k)%nat
  | _ => false
  end.

(** Whether the rendering of [k] for the timer has three characters. *)
Definition three_chars (k : nat) : bool :=
  (String.length (padStart2 (Num.String_of_Z (Z.of_nat k))) =? 3)%nat.

End Timer.

(** ** Waveform *)

Module Waveform.

(** A [ctx.fillRect(x, y, width, height)] with the hue of its fill
    style. *)
Record Rect := mkRect { hue : Q; rect_x : Q; rect_y : Q; rect_w : Q; rect_h : Q }.

(** The body of the loop of [draw] from index [i] on, [x] being the
    variable of that name and [rest] the entries of [dataArray] from [i]. *)
Fixpoint bars_from (h barW bufferLength : Q) (i : nat) (x : Q) (rest : list Z) : list Rect :=
  match rest with
  | [] => []
  | v :: rest' =>
      let barH := (inject_Z v / 255) * h in
      let hue := 260 + (inject_Z (Z.of_nat i) / bufferLength) * 60 in
      mkRect hue x (h - barH) (barW - 1) barH
        :: bars_from h barW bufferLength (S i) (x + barW) rest'
  end.

(** The rectangles one run of [draw] paints on a canvas [w] wide and [h]
    high, [dataArray] holding what the analyser has written. *)
Definition draw (w h : Q) (dataArray : list Z) : list Rect :=
  let bufferLength := inject_Z (Z.of_nat (length dataArray)) in
  let barW := (w / bufferLength) * 2.5 in
  bars_from h barW bufferLength 0 0 dataArray.

End Waveform.

(** ** What holds of the page throughout *)

Module Inv.

(** Health checks that decide the badge: a success and a network error. *)
Definition decisive (r : Fetch) : option bool :=
  match r with
  | Rejected => Some false
  | Resolved res => if ok res then Some true else None
  end.

Definition badge_of (online : bool) : Health.State :=
  if online then Health.mkState true "Online" else Health.mkState false "Offline".

(** The file panel shows the file information exactly when a file is
    selected, and the drop zone exactly when none is. *)
Definition upload_consistent (u : Upload.State) : Prop :=
  (is_Some (Upload.selectedFile u) <-> Upload.fileInfo_display u = "flex") /\
  (is_Some (Upload.selectedFile u) <-> Upload.dropZone_display u = "none").

(** A button shows its loading state only while a request is in flight. *)
Definition loading_tracks_requests (a : App.State) : Prop :=
  (loading (Upload.btnPredict (App.upload a)) = true -> (0 < App.predict_pending a)%nat) /\
  (loading (App.btnSystem (App.system a)) = true -> (0 < App.system_pending a)%nat).

(** Whether the event is a prediction request settling with a response
    that is rendered. *)
Definition renders (e : App.Event) : bool :=
  match e with
  | App.PredictSettled (Resolved (mkResponse true (Some _)))
  | App.SystemSettled (Resolved (mkResponse true (Some _)))
  | App.UploadSettled (Resolved (mkResponse true (Some _))) => true
  | _ => false
  end.

Definition is_render (c : App.Call) : bool :=
  match c with
  | App.CallShowResults _ => true
  | App.CallShowError _ => false
  end.

(** The timeouts of the toast that are pending have between 1 and 6000
    milliseconds left. *)
Definition timeouts_bounded (t : Notifier.State) : Prop :=
  Forall (fun ms => (0 < ms <= 6000)%Z) (Notifier.timeouts t).

(** The toast is displayed only while a timeout is pending, and pending
    timeouts have at most 6000 milliseconds left. *)
Definition toast_timed (t : Notifier.State) : Prop :=
  timeouts_bounded t /\
  (Notifier.errorToast_display t = "flex" -> Notifier.timeouts t <> []).

End Inv.

(** The page while the microphone is recording its first session. *)
Definition recording_page : App.State :=
  default App.initial
    (App.run [App.RecordClick; App.GetUserMediaSettled (App.Granted true)] App.initial).

(** * Properties *)

(** ** Numbers *)

Module NumFacts.
Import Num.

Lemma gtb_true (a b : Q) : gtb a b = true <-> b < a.
Proof.
  unfold gtb. rewrite negb_true_iff, <- not_true_iff_false, Qle_bool_iff.
  split; [apply Qnot_le_lt | apply Qlt_not_le].
Qed.

Lemma gtb_false (a b : Q) : gtb a b = false <-> a <= b.
Proof.
  unfold gtb. rewrite negb_false_iff. apply Qle_bool_iff.
Qed.

(** [Math.round] returns the integer within one half of its argument. *)
Lemma Math_round_nearest (x : Q) :
  inject_Z (Math_round x) - (1 # 2) <= x /\ x < inject_Z (Math_round x) + (1 # 2).
Proof.
  unfold Math_round.
  pose proof (Qfloor_le (x + (1 # 2))) as Hlo.
  pose proof (Qlt_floor (x + (1 # 2))) as Hhi.
  rewrite inject_Z_plus in Hhi. change (inject_Z 1) with 1 in Hhi.
  split; lra.
Qed.

Lemma Math_round_mono (x y : Q) : x <= y -> (Math_round x <= Math_round y)%Z.
Proof.
  intros H. unfold Math_round. apply Qfloor_resp_le. lra.
Qed.

Lemma Math_round_Z (z : Z) : Math_round (inject_Z z) = z.
Proof.
  unfold Math_round.
  pose proof (Qfloor_le (inject_Z z + (1 # 2))) as Hlo.
  pose proof (Qlt_floor (inject_Z z + (1 # 2))) as Hhi.
  set (f := Qfloor (inject_Z z + (1 # 2))) in *.
  rewrite inject_Z_plus in Hhi. change (inject_Z 1) with 1 in Hhi.
  assert (inject_Z f < inject_Z (z + 1)) as H1
    by (rewrite inject_Z_plus; change (inject_Z 1) with 1; lra).
  assert (inject_Z z < inject_Z (f + 1)) as H2
    by (rewrite inject_Z_plus; change (inject_Z 1) with 1; lra).
  rewrite <- Zlt_Qlt in H1, H2. lia.
Qed.

Example round_87 : Math_round (0.87 * 100) = 87%Z.
Proof. reflexivity. Qed.

Example round_tie : Math_round (0.125 * 100) = 13%Z.
Proof. reflexivity. Qed.

Example toFixed_60 : toFixed1 (0.6 * 100) = "60.0".
Proof. reflexivity. Qed.

Example toFixed_negative : toFixed1 (- 0.04) = "-0.0".
Proof. reflexivity. Qed.

Example toFixed_tie : toFixed1 0.25 = "0.3".
Proof. reflexivity. Qed.

(** *** Binary64 rounding *)

Lemma round_half_even_near (y : Q) :
  y - (1 # 2) <= inject_Z (round_half_even y) <= y + (1 # 2).
Proof.
  unfold round_half_even.
  pose proof (Qfloor_le y) as Hlo. pose proof (Qlt_floor y) as Hhi.
  rewrite inject_Z_plus in Hhi. change (inject_Z 1) with 1 in Hhi.
  destruct (Qcompare_spec (y - inject_Z (Qfloor y)) (1 # 2)) as [Heq|Hlt|Hgt].
  - destruct (Z.even (Qfloor y)).
    + split; lra.
    + rewrite inject_Z_plus. change (inject_Z 1) with 1. split; lra.
  - split; lra.
  - rewrite inject_Z_plus. change (inject_Z 1) with 1. split; lra.
Qed.

Lemma quantum_positive (x : Q) : 0 < quantum x.
Proof. unfold quantum. by apply Qpower_0_lt. Qed.

(** [binary64] moves a number by at most half the spacing around it. *)
Lemma binary64_near (x : Q) :
  x - quantum x / 2 <= binary64 x <= x + quantum x / 2.
Proof.
  unfold binary64. pose proof (quantum_positive x) as Hq.
  pose proof (round_half_even_near (x / quantum x)) as [Hlo Hhi].
  set (q := quantum x) in *. set (m := inject_Z (round_half_even (x / q))) in *.
  assert (x == x / q * q) as Hx by (field; lra).
  set (y := x / q) in *.
  assert (0 <= (m - (y - (1 # 2))) * q) as H1 by (apply Qmult_le_0_compat; lra).
  assert (0 <= (y + (1 # 2) - m) * q) as H2 by (apply Qmult_le_0_compat; lra).
  unfold Qdiv. change (/ 2) with (1 # 2).
  split; rewrite Hx at 1; lra.
Qed.

Lemma ilog2_below (m : Z) (x : Q) : (0 <= m)%Z -> Qabs x < 2 ^ m -> (ilog2 x < m)%Z.
Proof.
  intros Hm Hx. unfold ilog2.
  set (a := Z.log2 (Z.abs (Qnum x))). set (b := Z.log2 (Zpos (Qden x))).
  destruct (Qle_bool (2 ^ (a - b)) (Qabs x)) eqn:Hk.
  - apply Qle_bool_iff in Hk. apply (Qpower_lt_compat_l_inv 2); [|reflexivity].
    eapply Qle_lt_trans; eassumption.
  - pose proof (Z.log2_nonneg (Zpos (Qden x))) as Hb. fold b in Hb.
    destruct (decide (Qnum x = 0%Z)) as [Hzero|Hnonzero].
    { unfold a. rewrite Hzero. simpl. lia. }
    assert (2 ^ (a - b - 1) < Qabs x) as Hbelow.
    { assert (0 < Z.abs (Qnum x))%Z as Hn by lia.
      destruct (Z.log2_spec _ Hn) as [Hna _]. fold a in Hna.
      destruct (Z.log2_spec (Zpos (Qden x)) eq_refl) as [_ Hdb]. fold b in Hdb.
      pose proof (Z.log2_nonneg (Z.abs (Qnum x))) as Ha. fold a in Ha.
      replace (a - b - 1)%Z with (a - Z.succ b)%Z by lia.
      rewrite Qpower_minus by discriminate.
      change 2 with (inject_Z 2). rewrite <- !Zpower_Qpower by lia.
      assert (Qabs x == inject_Z (Z.abs (Qnum x)) / inject_Z (Zpos (Qden x))) as ->.
      { destruct x as [n d]. unfold Qabs. cbn [Qnum Qden]. apply Qmake_Qdiv. }
      rewrite Zle_Qle in Hna. rewrite Zlt_Qlt in Hdb, Hn.
      assert (0 < inject_Z (Zpos (Qden x))) as Hd by (by rewrite <- (Zlt_Qlt 0)).
      assert (0 < inject_Z (2 ^ a)) as Hpa.
      { rewrite <- (Zlt_Qlt 0). by apply Z.pow_pos_nonneg. }
      change (inject_Z 0) with 0 in Hn.
      set (A := inject_Z (2 ^ a)) in *. set (B := inject_Z (2 ^ Z.succ b)) in *.
      set (N := inject_Z (Z.abs (Qnum x))) in *. set (D := inject_Z (Zpos (Qden x))) in *.
      apply Qlt_shift_div_l; [exact Hd|].
      assert (A / B * D == A * D / B) as -> by (field; lra).
      apply Qlt_shift_div_r; [lra|]. nra. }
    assert (a - b - 1 < m)%Z; [|lia].
    apply (Qpower_lt_compat_l_inv 2); [|reflexivity].
    eapply Qlt_trans; eassumption.
Qed.

(** The spacing around a number below [2 ^ m] in magnitude is at most
    [2 ^ (m - 53)]. *)
Lemma quantum_below (m : Z) (x : Q) :
  (0 <= m)%Z -> Qabs x < 2 ^ m -> quantum x <= 2 ^ (m - 53).
Proof.
  intros Hm Hx. pose proof (ilog2_below m x Hm Hx) as Hlog.
  unfold quantum. apply Qpower_le_compat_l; [lia | discriminate].
Qed.

Example binary64_tenth : binary64 0.1 == 3602879701896397 # 36028797018963968.
Proof. vm_compute. reflexivity. Qed.

Example binary64_tie_to_even :
  binary64 9007199254740993 == 9007199254740992 /\
  binary64 9007199254740995 == 9007199254740996.
Proof. split; vm_compute; reflexivity. Qed.

Example binary64_integer : binary64 100 == 100.
Proof. vm_compute. reflexivity. Qed.

End NumFacts.

(** ** Results display *)

Module RendererFacts.
Import Renderer NumFacts.

(** The loop appends to the chart, to the elements and to the frame
    callbacks, and touches nothing else. *)
Lemma forEach_from_render (maxConf : Q) (items : list Item) (i : nat) (s : State) :
  forEach_from (render_item maxConf) i items s =
  mkState (resultsSection_display s) (genreEmoji_text s) (genreEmoji_animation s)
    (genreName_text s) (confidenceValue_text s) (ringFill_strokeDashoffset s)
    (ringGradient s)
    (chartBars s ++ seq (length (elements s)) (length items))
    (elements s ++ rows_from i items)
    (frame_callbacks s ++ callbacks_from Outer maxConf (length (elements s)) items).
Proof.
  revert i s. induction items as [|item items IH]; intros i s.
  - destruct s; simpl. by rewrite !app_nil_r.
  - simpl. rewrite IH. simpl. rewrite length_app. simpl.
    rewrite Nat.add_1_r, <- !app_assoc. reflexivity.
Qed.

Lemma showResults_unfold (data : Data) (s : State) :
  let items := default [] (top_genres data) in
  showResults data s =
  mkState "block" (emoji_of (genre data)) "bounceIn 0.5s ease" (genre data)
    (Num.String_of_Z (Num.Math_round (times_100 (confidence data))))
    (Some (circumference * (1 - confidence data)))
    true
    (seq (length (elements s)) (length items))
    (elements s ++ rows_from 0 items)
    (frame_callbacks s ++ callbacks_from Outer (maxConf_of items) (length (elements s)) items).
Proof.
  intros items. unfold showResults, forEach. fold items. fold (maxConf_of items).
  rewrite forEach_from_render. simpl. by destruct (ringGradient s).
Qed.

(** Running callbacks one after the other: the elements are painted, and
    what the callbacks request is appended to the frame callbacks. *)
Lemma foldl_run_callback (cbs : list Callback) (s : State) :
  foldl run_callback s cbs =
  mkState (resultsSection_display s) (genreEmoji_text s) (genreEmoji_animation s)
    (genreName_text s) (confidenceValue_text s) (ringFill_strokeDashoffset s)
    (ringGradient s) (chartBars s)
    (foldl paint (elements s) cbs)
    (frame_callbacks s ++ omap promote cbs).
Proof.
  revert s. induction cbs as [|cb cbs IH]; intros s.
  - destruct s; simpl. by rewrite app_nil_r.
  - simpl. rewrite IH. destruct cb; simpl; [|reflexivity].
    by rewrite <- app_assoc.
Qed.

Lemma animation_frame_unfold (s : State) :
  animation_frame s =
  mkState (resultsSection_display s) (genreEmoji_text s) (genreEmoji_animation s)
    (genreName_text s) (confidenceValue_text s) (ringFill_strokeDashoffset s)
    (ringGradient s) (chartBars s)
    (foldl paint (elements s) (frame_callbacks s))
    (omap promote (frame_callbacks s)).
Proof.
  unfold animation_frame. by rewrite foldl_run_callback.
Qed.

Lemma length_paint (cbs : list Callback) (els : list Row) :
  length (foldl paint els cbs) = length els.
Proof.
  revert els. induction cbs as [|cb cbs IH]; intros els; [done|].
  simpl. rewrite IH. destruct cb; simpl; [done|]. by rewrite length_alter.
Qed.

(** Callbacks that hold elements of [els] leave the elements after them
    alone. *)
Lemma paint_old (cbs : list Callback) (els rows : list Row) :
  Forall (fun cb => (target cb < length els)%nat) cbs ->
  foldl paint (els ++ rows) cbs = foldl paint els cbs ++ rows.
Proof.
  revert els. induction cbs as [|cb cbs IH]; intros els Hcbs; [done|].
  apply Forall_cons in Hcbs as [Hcb Hcbs]. simpl.
  destruct cb as [row p|row p]; simpl in *.
  - by apply IH.
  - rewrite alter_app_l by done. apply IH.
    by rewrite length_alter.
Qed.

Lemma paint_outer (maxConf : Q) (items : list Item) (row : nat) (els : list Row) :
  foldl paint els (callbacks_from Outer maxConf row items) = els.
Proof.
  revert row. induction items as [|item items IH]; intros row; [done|].
  simpl. apply IH.
Qed.

(** The inner callbacks of freshly created rows give each row its width. *)
Lemma paint_inner (maxConf : Q) (items : list Item) (i : nat) (els : list Row) :
  foldl paint (els ++ rows_from i items) (callbacks_from Inner maxConf (length els) items) =
  els ++ painted_from maxConf i items.
Proof.
  revert i els. induction items as [|item items IH]; intros i els; [done|].
  simpl. rewrite alter_app_r_alt by done. rewrite Nat.sub_diag. simpl.
  rewrite !(cons_middle _ els), !app_assoc.
  specialize (IH (S i) (els ++ [set_width (barPct_of maxConf item) (new_row item i)])).
  rewrite length_app, Nat.add_1_r in IH. apply IH.
Qed.

Lemma promote_outer (maxConf : Q) (items : list Item) (row : nat) :
  omap promote (callbacks_from Outer maxConf row items) = callbacks_from Inner maxConf row items.
Proof.
  revert row. induction items as [|item items IH]; intros row; [done|].
  simpl. by rewrite IH.
Qed.

Lemma promote_inner (maxConf : Q) (items : list Item) (row : nat) :
  omap promote (callbacks_from Inner maxConf row items) = [].
Proof.
  revert row. induction items as [|item items IH]; intros row; [done|].
  simpl. apply IH.
Qed.

Lemma promote_promote (cbs : list Callback) : omap promote (omap promote cbs) = [].
Proof.
  induction cbs as [|[row p|row p] cbs IH]; simpl; done.
Qed.

Lemma target_promote (n : nat) (cbs : list Callback) :
  Forall (fun cb => (target cb < n)%nat) cbs ->
  Forall (fun cb => (target cb < n)%nat) (omap promote cbs).
Proof.
  induction 1 as [|[row p|row p] cbs Hcb Hcbs IH]; simpl; [done| |done].
  by constructor.
Qed.

Lemma length_rows_from (i : nat) (items : list Item) :
  length (rows_from i items) = length items.
Proof.
  revert i. induction items as [|item items IH]; intros i; simpl; [done|].
  by rewrite IH.
Qed.

Lemma length_painted_from (maxConf : Q) (i : nat) (items : list Item) :
  length (painted_from maxConf i items) = length items.
Proof.
  revert i. induction items as [|item items IH]; intros i; simpl; [done|].
  by rewrite IH.
Qed.

(** Looking up the indices of a suffix gives the suffix. *)
Lemma lookup_suffix (els rows : list Row) :
  omap (fun row => (els ++ rows) !! row) (seq (length els) (length rows)) = rows.
Proof.
  revert els. induction rows as [|r rows IH]; intros els; [done|].
  simpl. rewrite list_lookup_middle by done. simpl. f_equal.
  specialize (IH (els ++ [r])). rewrite length_app, Nat.add_1_r, <- app_assoc in IH.
  apply IH.
Qed.

Lemma frames_idle (n : nat) (s : State) : frame_callbacks s = [] -> frames n s = s.
Proof.
  intros Hs. induction n as [|n IH]; [done|].
  simpl. rewrite animation_frame_unfold, Hs. simpl. rewrite <- Hs.
  destruct s; simpl in *. exact IH.
Qed.

(** The first frame after [showResults]: the new rows are still at
    [width: 0%], and their inner callbacks wait behind what the older
    callbacks left. *)
Lemma first_frame (data : Data) (s : State) :
  wf s ->
  let items := default [] (top_genres data) in
  let els := foldl paint (elements s) (frame_callbacks s) in
  animation_frame (showResults data s) =
  mkState "block" (emoji_of (genre data)) "bounceIn 0.5s ease" (genre data)
    (Num.String_of_Z (Num.Math_round (times_100 (confidence data))))
    (Some (circumference * (1 - confidence data)))
    true
    (seq (length els) (length items))
    (els ++ rows_from 0 items)
    (omap promote (frame_callbacks s) ++ callbacks_from Inner (maxConf_of items) (length els) items).
Proof.
  intros Hwf items els. rewrite animation_frame_unfold, showResults_unfold. simpl.
  fold items. unfold els. rewrite length_paint.
  rewrite foldl_app, paint_outer, paint_old by exact Hwf.
  by rewrite omap_app, promote_outer.
Qed.

(** The second frame: every new row has its width, and no callback is
    left. *)
Lemma second_frame (data : Data) (s : State) :
  wf s ->
  let items := default [] (top_genres data) in
  let els := foldl paint (foldl paint (elements s) (frame_callbacks s))
               (omap promote (frame_callbacks s)) in
  animation_frame (animation_frame (showResults data s)) =
  mkState "block" (emoji_of (genre data)) "bounceIn 0.5s ease" (genre data)
    (Num.String_of_Z (Num.Math_round (times_100 (confidence data))))
    (Some (circumference * (1 - confidence data)))
    true
    (seq (length els) (length items))
    (els ++ painted_from (maxConf_of items) 0 items)
    [].
Proof.
  intros Hwf items els. rewrite first_frame by exact Hwf. fold items.
  rewrite animation_frame_unfold. simpl.
  set (els1 := foldl paint (elements s) (frame_callbacks s)).
  assert (length els = length els1) as Hlen by (unfold els; apply length_paint).
  rewrite foldl_app, paint_old.
  2:{ apply target_promote. unfold els1. rewrite length_paint. exact Hwf. }
  fold els. rewrite <- Hlen, paint_inner.
  by rewrite omap_app, promote_promote, promote_inner.
Qed.

(** What is on display after [showResults] depends on the data it was given
    and on the number of frames since, and on nothing that was there
    before. *)
Lemma view_frames_showResults (data : Data) (s : State) (n : nat) :
  wf s -> view (frames n (showResults data s)) = rendered data n.
Proof.
  intros Hwf. unfold rendered, rendered_rows.
  destruct n as [|[|n]]; simpl frames.
  - rewrite showResults_unfold. unfold view, displayed_rows; simpl.
    rewrite <- (length_rows_from 0 (default [] (top_genres data))).
    by rewrite lookup_suffix.
  - rewrite first_frame by exact Hwf. unfold view, displayed_rows; simpl.
    rewrite <- (length_rows_from 0 (default [] (top_genres data))).
    by rewrite lookup_suffix.
  - rewrite second_frame by exact Hwf. rewrite frames_idle by done.
    unfold view, displayed_rows; simpl.
    rewrite <- (length_painted_from (maxConf_of (default [] (top_genres data))) 0
                  (default [] (top_genres data))).
    by rewrite lookup_suffix.
Qed.

(** [wf] holds of the blank page and is kept by the renderer and by
    animation frames. *)
Lemma wf_blank : wf blank.
Proof. constructor. Qed.

Lemma target_callbacks_from (k : nat -> Q -> Callback) (maxConf : Q) (items : list Item)
    (row bound : nat) :
  (forall r p, target (k r p) = r) ->
  (row + length items <= bound)%nat ->
  Forall (fun cb => (target cb < bound)%nat) (callbacks_from k maxConf row items).
Proof.
  intros Hk. revert row. induction items as [|item items IH]; intros row Hrow; simpl in *.
  - constructor.
  - constructor; [rewrite Hk; lia | apply IH; lia].
Qed.

Lemma wf_showResults (data : Data) (s : State) : wf s -> wf (showResults data s).
Proof.
  intros Hwf. unfold wf. rewrite showResults_unfold. simpl.
  rewrite length_app, length_rows_from. apply Forall_app. split.
  - eapply Forall_impl; [exact Hwf|]. simpl. intros cb Hcb. lia.
  - apply target_callbacks_from; [done | lia].
Qed.

Lemma wf_animation_frame (s : State) : wf s -> wf (animation_frame s).
Proof.
  intros Hwf. unfold wf. rewrite animation_frame_unfold. simpl.
  rewrite length_paint. by apply target_promote.
Qed.

Lemma wf_frames (n : nat) (s : State) : wf s -> wf (frames n s).
Proof.
  revert s. induction n as [|n IH]; intros s Hwf; [done|].
  simpl. apply IH. by apply wf_animation_frame.
Qed.

Lemma bar_width_painted (maxConf : Q) (i : nat) (items : list Item) :
  bar_width <$> painted_from maxConf i items = barPct_of maxConf <$> items.
Proof.
  revert i. induction items as [|item items IH]; intros i; [done|].
  simpl. by rewrite IH.
Qed.

Lemma bar_width_rows (i : nat) (items : list Item) :
  bar_width <$> rows_from i items = replicate (length items) 0.
Proof.
  revert i. induction items as [|item items IH]; intros i; [done|].
  simpl. by rewrite IH.
Qed.

Lemma bar_widths_view (s : State) : bar_widths s = bar_width <$> view_rows (view s).
Proof. reflexivity. Qed.

(** In a list in descending order the first number is the highest. *)
Lemma highest_descending (c : Q) (l : list Q) : descending (c :: l) -> highest (c :: l) = c.
Proof.
  intros Hsorted. apply Sorted_StronglySorted in Hsorted.
  2:{ intros x y z Hxy Hyz. lra. }
  apply StronglySorted_inv in Hsorted as [_ Hall]. simpl.
  induction Hall as [|c' l Hc' Hall IH]; [done|].
  simpl. apply gtb_false in Hc'. by rewrite Hc'.
Qed.

(** C1: two animation frames after a prediction is rendered, and from then
    on, the chart shows one bar per entry of [top_genres], in list order,
    and the width of each bar, in percent, is the entry's confidence divided
    by the highest confidence in the list, times 100.  The list is in
    descending order, as the service sends it, and its highest confidence is
    positive. *)
Theorem bars_scaled_to_highest (s : State) (data : Data) (items : list Item) (n : nat) :
  wf s ->
  top_genres data = Some items ->
  descending (confidences items) ->
  0 < highest (confidences items) ->
  (2 <= n)%nat ->
  bar_widths (frames n (showResults data s)) =
  (fun c => c / highest (confidences items) * 100) <$> confidences items.
Proof.
  intros Hwf Htop Hdesc Hpos Hn.
  rewrite bar_widths_view, view_frames_showResults by exact Hwf.
  unfold rendered, rendered_rows; simpl. rewrite Htop; simpl.
  destruct (Nat.ltb_spec n 2) as [Hlt|_]; [lia|].
  rewrite bar_width_painted.
  destruct items as [|first rest]; [done|].
  assert (highest (confidences (first :: rest)) = item_confidence first) as Hmax
    by (apply highest_descending; exact Hdesc).
  rewrite Hmax in *. apply gtb_true in Hpos.
  unfold confidences. rewrite <- list_fmap_compose.
  apply list_fmap_ext. intros _ item _. unfold barPct_of, maxConf_of; simpl.
  by rewrite Hpos.
Qed.

(** The example of the specification: confidences 0.6, 0.3 and 0.1 give
    bars of 100, 50 and 50/3 percent, which is 16.7 to one decimal. *)
Lemma bars_scaled_to_highest_example :
  Forall2 Qeq (bar_widths (frames 2 (showResults example_data blank))) [100; 50; 50 # 3] /\
  Num.toFixed1 (50 # 3) = "16.7".
Proof.
  split; [|reflexivity].
  rewrite (bars_scaled_to_highest blank example_data
             [mkItem "rock" 0.6; mkItem "pop" 0.3; mkItem "jazz" 0.1] 2).
  - vm_compute. repeat constructor.
  - exact wf_blank.
  - reflexivity.
  - repeat constructor; unfold Qle; simpl; lia.
  - reflexivity.
  - lia.
Defined.

Lemma showResults_ring (data : Data) (s : State) :
  ringFill_strokeDashoffset (showResults data s) = Some (circumference * (1 - confidence data)) /\
  confidenceValue_text (showResults data s) =
    Num.String_of_Z (Num.Math_round (times_100 (confidence data))).
Proof.
  rewrite showResults_unfold. split; reflexivity.
Qed.

Lemma circumference_positive : 0 < circumference.
Proof. reflexivity. Qed.

(** The product the script computes for a confidence between 0 and 1 is
    within [2 ^ -45] of the exact product. *)
Lemma times_100_near (c : Q) :
  0 <= c <= 1 ->
  c * 100 - (1 # 35184372088832) <= times_100 c <= c * 100 + (1 # 35184372088832).
Proof.
  intros [Hlo Hhi]. unfold times_100.
  assert (Num.quantum c <= 1 # 4503599627370496) as Hqc.
  { apply (NumFacts.quantum_below 1); [lia|]. rewrite Qabs_pos by exact Hlo.
    change (2 ^ 1) with 2. lra. }
  pose proof (NumFacts.binary64_near c) as Hc. revert Hc Hqc.
  unfold Qdiv. change (/ 2) with (1 # 2).
  generalize (Num.quantum c) (Num.binary64 c). intros qc b Hb Hqc.
  assert (Num.quantum (b * 100) <= 1 # 70368744177664) as Hqp.
  { apply (NumFacts.quantum_below 7); [lia|]. apply Qabs_Qlt_condition.
    change (2 ^ 7) with 128. split; lra. }
  pose proof (NumFacts.binary64_near (b * 100)) as Hp. revert Hp Hqp.
  unfold Qdiv. change (/ 2) with (1 # 2).
  generalize (Num.quantum (b * 100)) (Num.binary64 (b * 100)). intros qp t Ht Hqp.
  split; lra.
Qed.

(** C6: for a prediction with confidence [c] between 0 and 1, the ring's
    stroke-dash offset is [circumference * (1 - c)], with the circumference
    fixed at [2 * Math.PI * 52], and the number displayed is
    [Math.round(c * 100)], the product being the binary64 one; the offset
    lies between 0 and the circumference, and the number is an integer
    between 0 and 100, within one half of the product the script computes
    and so within [1/2 + 2 ^ -45] of [c * 100]. *)
Theorem confidence_ring (s : State) (data : Data) :
  0 <= confidence data <= 1 ->
  ringFill_strokeDashoffset (showResults data s) = Some (circumference * (1 - confidence data)) /\
  circumference = 2 * Num.Math_PI * 52 /\
  0 <= circumference * (1 - confidence data) <= circumference /\
  confidenceValue_text (showResults data s) =
    Num.String_of_Z (Num.Math_round (Num.binary64 (Num.binary64 (confidence data) * 100))) /\
  (0 <= Num.Math_round (times_100 (confidence data)) <= 100)%Z /\
  inject_Z (Num.Math_round (times_100 (confidence data))) - (1 # 2)
    <= times_100 (confidence data)
    < inject_Z (Num.Math_round (times_100 (confidence data))) + (1 # 2) /\
  Qabs (inject_Z (Num.Math_round (times_100 (confidence data))) - confidence data * 100)
    <= (1 # 2) + (1 # 35184372088832).
Proof.
  intros [Hlo Hhi]. destruct (showResults_ring data s) as [Hoffset Htext].
  pose proof circumference_positive as Hpos.
  pose proof (times_100_near (confidence data) (conj Hlo Hhi)) as [Hnear1 Hnear2].
  pose proof (Math_round_nearest (times_100 (confidence data))) as [Hround1 Hround2].
  repeat split; try assumption.
  - apply Qmult_le_0_compat; lra.
  - revert Hpos. generalize circumference. intros C HC. nra.
  - pose proof (Math_round_mono (- (1 # 4)) (times_100 (confidence data))) as Hmono.
    apply Hmono. lra.
  - pose proof (Math_round_mono (times_100 (confidence data)) (100 + (1 # 4))) as Hmono.
    apply Hmono. lra.
  - apply Qabs_Qle_condition. split; lra.
Qed.

(** The example of the specification: confidence 0.87 gives the offset
    [circumference * (1 - 0.87)] and the number 87.  Confidence 0.285 gives
    the number 28: the binary64 number nearest to 0.285 lies below it, and
    so does its product with 100 below 28.5. *)
Lemma confidence_ring_example :
  (ringFill_strokeDashoffset (showResults example_data blank)
     = Some (circumference * (1 - 0.87)) /\
   confidenceValue_text (showResults example_data blank) = "87") /\
  confidenceValue_text (showResults (mkData "jazz" 0.285 None None) blank) = "28".
Proof.
  split.
  - assert (0 <= confidence example_data <= 1) as Hrange by (split; discriminate).
    destruct (confidence_ring blank example_data Hrange) as (Hoffset & _ & _ & Htext & _).
    split; [exact Hoffset | rewrite Htext; vm_compute; reflexivity].
  - assert (0 <= confidence (mkData "jazz" 0.285 None None) <= 1) as Hrange
      by (split; discriminate).
    destruct (confidence_ring blank (mkData "jazz" 0.285 None None) Hrange)
      as (_ & _ & _ & Htext & _).
    rewrite Htext. vm_compute. reflexivity.
Defined.

(** The number displayed follows the product as the script computes it.
    For the binary64 number nearest to 0.615 the computed product is 61.5
    and the number displayed 62, while the exact product lies below 61.5. *)
Example confidence_ring_binary64_product :
  let c := Num.binary64 0.615 in
  Num.binary64 c == c /\
  times_100 c == 61.5 /\
  Num.Math_round (times_100 c) = 62%Z /\
  Num.Math_round (c * 100) = 61%Z.
Proof. vm_compute. repeat split; reflexivity. Qed.

(** C9: what the results area shows after [showResults] is determined by
    the prediction alone, whatever it showed before: top genre, glyph,
    confidence ring and bar chart are all replaced.  So rendering a
    prediction again, at once or some frames later, leaves on display, frame
    for frame, what rendering it once leaves. *)
Theorem showResults_idempotent (s : State) (data : Data) (m n : nat) :
  wf s ->
  (forall s', wf s' ->
     view (frames n (showResults data s')) = view (frames n (showResults data s))) /\
  view (frames n (showResults data (frames m (showResults data s)))) =
  view (frames n (showResults data s)).
Proof.
  intros Hwf. split.
  - intros s' Hwf'. by rewrite !view_frames_showResults.
  - rewrite !view_frames_showResults; [reflexivity | exact Hwf |].
    apply wf_frames, wf_showResults, Hwf.
Qed.

Lemma showResults_idempotent_example :
  view (showResults example_data (showResults example_data blank)) =
  view (showResults example_data blank) /\
  view (frames 2 (showResults example_data (frames 1 (showResults example_data blank)))) =
  view (frames 2 (showResults example_data blank)).
Proof.
  split.
  - exact (proj2 (showResults_idempotent blank example_data 0 0 wf_blank)).
  - exact (proj2 (showResults_idempotent blank example_data 1 2 wf_blank)).
Defined.

Lemma barPct_flat (maxConf : Q) (items : list Item) :
  Num.gtb maxConf 0 = false -> barPct_of maxConf <$> items = replicate (length items) 0.
Proof.
  intros Hgt. induction items as [|item items IH]; [done|].
  simpl. unfold barPct_of at 1. rewrite Hgt. f_equal. exact IH.
Qed.

(** C10: [showResults] is defined on degenerate data.  When [top_genres] is
    absent or empty the chart has no row; when the first entry's confidence
    is 0 the chart has a row for every entry and every bar is 0 wide, at
    every frame. *)
Theorem showResults_degenerate (s : State) (data : Data) (n : nat) :
  wf s ->
  (top_genres data = None \/ top_genres data = Some [] ->
   displayed_rows (frames n (showResults data s)) = []) /\
  (forall first rest,
     top_genres data = Some (first :: rest) ->
     item_confidence first == 0 ->
     bar_widths (frames n (showResults data s)) = replicate (S (length rest)) 0).
Proof.
  intros Hwf. split.
  - intros Htop.
    change (view_rows (view (frames n (showResults data s))) = []).
    rewrite view_frames_showResults by exact Hwf. unfold rendered, rendered_rows; simpl.
    destruct Htop as [-> | ->]; simpl; by destruct (n <? 2)%nat.
  - intros first rest Htop Hzero.
    rewrite bar_widths_view, view_frames_showResults by exact Hwf.
    unfold rendered. cbn [view_rows]. rewrite Htop.
    change (default [] (Some (first :: rest))) with (first :: rest).
    unfold rendered_rows. destruct (n <? 2)%nat.
    + by rewrite bar_width_rows.
    + rewrite bar_width_painted. apply (barPct_flat _ (first :: rest)).
      apply gtb_false. unfold maxConf_of. lra.
Qed.

Lemma showResults_degenerate_example :
  displayed_rows (showResults bare_data blank) = [] /\
  bar_widths (frames 2 (showResults flat_data blank)) = [0; 0].
Proof.
  split.
  - apply (showResults_degenerate blank bare_data 0 wf_blank). left. reflexivity.
  - apply (proj2 (showResults_degenerate blank flat_data 2 wf_blank)
             (mkItem "rock" 0) [mkItem "pop" 0.5]); reflexivity.
Defined.

End RendererFacts.

(** ** Health check *)

Module HealthFacts.
Import Health.

Lemma checkHealth_success (s : State) (body : option Data) :
  checkHealth (Resolved (mkResponse true body)) s = mkState true "Online".
Proof. reflexivity. Qed.

Lemma checkHealth_network_error (s : State) : checkHealth Rejected s = mkState false "Offline".
Proof. reflexivity. Qed.

Lemma checkHealth_failure_response (s : State) (body : option Data) :
  checkHealth (Resolved (mkResponse false body)) s = s.
Proof. reflexivity. Qed.

(** C2: a successful response marks the badge online and a network error
    marks it offline, but a response that is not a success leaves the badge
    as it is: after a successful check, a check answered with an error
    status still shows "Online". *)
Theorem failure_response_stays_online (s : State) (body body' : option Data) :
  checkHealth (Resolved (mkResponse true body)) s = mkState true "Online" /\
  checkHealth Rejected s = mkState false "Offline" /\
  checkHealth (Resolved (mkResponse false body'))
    (checkHealth (Resolved (mkResponse true body)) s) = mkState true "Online".
Proof.
  rewrite checkHealth_failure_response, checkHealth_success, checkHealth_network_error.
  repeat split.
Qed.

End HealthFacts.

(** ** Error notification *)

Module NotifierFacts.
Import Notifier.

Lemma showError_shown (msg : string) (s : State) :
  errorMessage_text (showError msg s) = msg /\ errorToast_display (showError msg s) = "flex".
Proof. split; reflexivity. Qed.

Lemma errorClose_hides (s : State) : errorToast_display (errorClose_click s) = "none".
Proof. reflexivity. Qed.

Lemma foldl_timeout_callback (due : list Z) (s : State) :
  errorMessage_text (foldl (fun s' _ => timeout_callback s') s due) = errorMessage_text s /\
  errorToast_display (foldl (fun s' _ => timeout_callback s') s due) =
    match due with [] => errorToast_display s | _ => "none" end /\
  timeouts (foldl (fun s' _ => timeout_callback s') s due) = timeouts s.
Proof.
  revert s. induction due as [|t due IH]; intros s; [done|].
  simpl. destruct (IH (timeout_callback s)) as (-> & -> & ->).
  repeat split. by destruct due.
Qed.

Lemma elapse_display (ms : Z) (s : State) :
  errorToast_display (elapse ms s) =
    match filter (fun t => (t <= 0)%Z) ((fun t => (t - ms)%Z) <$> timeouts s) with
    | [] => errorToast_display s
    | _ => "none"
    end.
Proof.
  unfold elapse.
  destruct (foldl_timeout_callback
              (filter (fun t => (t <= 0)%Z) ((fun t => (t - ms)%Z) <$> timeouts s))
              (mkState (errorMessage_text s) (errorToast_display s) (errorToast_animation s)
                 (filter (fun t => (0 < t)%Z) ((fun t => (t - ms)%Z) <$> timeouts s))))
    as (_ & Hdisplay & _).
  exact Hdisplay.
Qed.

(** An error shown on its own stays for six seconds and is then hidden. *)
Lemma lone_error_times_out (msg : string) (ms : Z) :
  (0 <= ms)%Z ->
  errorToast_display (elapse ms (showError msg blank)) =
    if (ms <? 6000)%Z then "flex" else "none".
Proof.
  intros Hms. rewrite elapse_display.
  change (timeouts (showError msg blank)) with [6000%Z].
  rewrite fmap_cons, fmap_nil, filter_cons, filter_nil.
  destruct (Z.ltb_spec ms 6000); case_decide; (done || lia).
Qed.

Lemma lone_error_times_out_example :
  errorToast_display (elapse 5999 (showError "A" blank)) = "flex" /\
  errorToast_display (elapse 6000 (showError "A" blank)) = "none".
Proof.
  split.
  - apply (lone_error_times_out "A" 5999). lia.
  - apply (lone_error_times_out "A" 6000). lia.
Defined.

(** C4: an error shown while the timeout of an earlier one is pending is
    hidden when that earlier timeout runs.  "B", shown four seconds after
    "A", is hidden two seconds later, with four seconds of its own delay
    left and without a click on the close button. *)
Theorem stale_timeout_hides_newer_error :
  let s := elapse 2000 (showError "B" (elapse 4000 (showError "A" blank))) in
  errorToast_display (showError "B" (elapse 4000 (showError "A" blank))) = "flex" /\
  errorMessage_text s = "B" /\
  errorToast_display s = "none" /\
  timeouts s = [4000%Z].
Proof.
  repeat split; vm_compute; reflexivity.
Qed.

End NotifierFacts.

(** ** File upload *)

Module UploadFacts.
Import Upload.

Lemma handleFile_enables (file : File) (s : State) :
  selectedFile (handleFile file s) = Some file /\
  disabled (btnPredict (handleFile file s)) = false.
Proof. split; reflexivity. Qed.

(** C8: a file chosen in the picker or dropped on the drop zone becomes the
    selected file and enables the predict button; a click on the remove
    button disables the predict button, clears the selected file and the
    file input, hides the file information and shows the drop zone again.
    This holds whatever the panel showed before. *)
Theorem selecting_enables_removing_disables (s : State) (file : File) (files : list File) :
  (selectedFile (fileInput_change (file :: files) s) = Some file /\
   disabled (btnPredict (fileInput_change (file :: files) s)) = false) /\
  (selectedFile (dropZone_drop (file :: files) s) = Some file /\
   disabled (btnPredict (dropZone_drop (file :: files) s)) = false) /\
  (disabled (btnPredict (fileRemove_click s)) = true /\
   selectedFile (fileRemove_click s) = None /\
   fileInput_files (fileRemove_click s) = [] /\
   fileInfo_display (fileRemove_click s) = "none" /\
   dropZone_display (fileRemove_click s) = "block").
Proof.
  split; [|split].
  - unfold fileInput_change. cbn [fileInput_files]. apply handleFile_enables.
  - unfold dropZone_drop. apply handleFile_enables.
  - unfold fileRemove_click. repeat split.
Qed.

End UploadFacts.

(** ** Prediction requests *)

Module AppFacts.
Import App.

Lemma showError_effect (msg : string) (a : State) :
  calls (showError msg a) = calls a ++ [CallShowError msg] /\
  results (showError msg a) = results a /\
  Notifier.errorMessage_text (toast (showError msg a)) = msg /\
  Notifier.errorToast_display (toast (showError msg a)) = "flex".
Proof. repeat split. Qed.

Lemma respond_rejected (fallback unreachable : string) (a : State) :
  respond fallback unreachable Rejected a = showError unreachable a.
Proof. reflexivity. Qed.

(** A response is rendered only when its status is a success and its body
    parses; every other answer goes to the error notifier. *)
Lemma respond_calls (fallback unreachable : string) (r : Fetch) (a : State) :
  (exists data, r = Resolved (mkResponse true (Some data)) /\
     calls (respond fallback unreachable r a) = calls a ++ [CallShowResults data]) \/
  (exists msg, calls (respond fallback unreachable r a) = calls a ++ [CallShowError msg] /\
     results (respond fallback unreachable r a) = results a).
Proof.
  destruct r as [|[[] [data|]]]; simpl; eauto.
Qed.

(** C5: when the request of any of the three prediction handlers fails with
    a network error, the handler calls [showError], whose message the toast
    then displays, and makes no other call: [showResults] is not called and
    the results area is left as it was. *)
Theorem network_error_shows_error_only (e : Event) (a a' : State) :
  e ∈ network_errors ->
  step e a = Some a' ->
  exists msg,
    calls a' = calls a ++ [CallShowError msg] /\
    results a' = results a /\
    Notifier.errorMessage_text (toast a') = msg /\
    Notifier.errorToast_display (toast a') = "flex".
Proof.
  intros He Hstep. unfold network_errors in He.
  apply elem_of_cons in He as [-> | He];
    [|apply elem_of_cons in He as [-> | He];
      [|apply list_elem_of_singleton in He as ->]];
    simpl in Hstep; case_bool_decide; simplify_eq;
    eexists; repeat split.
Qed.

(** The upload handler with a file dropped and its request in flight. *)
Lemma network_error_shows_error_only_example :
  exists a a',
    run [Drop [Upload.mkFile "song.wav" 2048]; PredictClick] initial = Some a /\
    step (PredictSettled Rejected) a = Some a' /\
    exists msg,
      calls a' = calls a ++ [CallShowError msg] /\
      results a' = results a /\
      Notifier.errorMessage_text (toast a') = msg /\
      Notifier.errorToast_display (toast a') = "flex".
Proof.
  eexists _, _. split; [vm_compute; reflexivity|]. split; [vm_compute; reflexivity|].
  eapply (network_error_shows_error_only (PredictSettled Rejected)).
  - apply list_elem_of_here.
  - vm_compute; reflexivity.
Defined.

(** The stale timeout of C4, reached through the page: a failed upload,
    then, four seconds later, a failed system capture. *)
Lemma stale_timeout_reached :
  exists a,
    run [Drop [Upload.mkFile "song.wav" 2048]; PredictClick; PredictSettled example_failure;
         Elapse 4000; SystemClick; SystemSettled Rejected; Elapse 2000] initial = Some a /\
    Notifier.errorMessage_text (toast a) = "Could not reach the server. Is it running?" /\
    Notifier.errorToast_display (toast a) = "none" /\
    Notifier.timeouts (toast a) = [4000%Z].
Proof.
  eexists. split; [vm_compute; reflexivity|]. repeat split.
Qed.

End AppFacts.

(** ** Microphone recording *)

Module MicFacts.
Import App.

(** A click while the recorder is recording stops it: no stream is
    requested, and the recorder's [stop] event is queued. *)
Lemma click_while_recording_stops (a : State) (r : nat) :
  Mic.mediaRecorder (Mic.vars (mic a)) = Some r ->
  Mic.is_recording (mic a) = true ->
  Mic.getUserMedia_pending (Mic.pending (mic (btnRecord_click a))) =
    Mic.getUserMedia_pending (Mic.pending (mic a)) /\
  Mic.streams (Mic.devices (mic (btnRecord_click a))) = Mic.streams (Mic.devices (mic a)) /\
  Mic.stop_events (Mic.pending (mic (btnRecord_click a))) =
    Mic.stop_events (Mic.pending (mic a)) ++ [r] /\
  Mic.is_recording (mic (btnRecord_click a)) = false.
Proof.
  intros Hr Hrec. unfold btnRecord_click. rewrite Hrec.
  unfold Mic.stopRecording. rewrite Hr, Hrec. repeat split.
  unfold Mic.is_recording in *. simpl. rewrite Hr in *.
  destruct (Mic.recorders (Mic.devices (mic a)) !! r) as [x|] eqn:Hx; [|done].
  rewrite list_lookup_alter, Hx. case_decide; [reflexivity | done].
Qed.

Lemma click_while_recording_stops_example :
  Mic.is_recording (mic recording_page) = true /\
  Mic.getUserMedia_pending (Mic.pending (mic (btnRecord_click recording_page))) = 0%nat /\
  Mic.streams (Mic.devices (mic (btnRecord_click recording_page))) = [true] /\
  Mic.stop_events (Mic.pending (mic (btnRecord_click recording_page))) = [0%nat] /\
  Mic.is_recording (mic (btnRecord_click recording_page)) = false.
Proof.
  split; [reflexivity|].
  apply (click_while_recording_stops recording_page 0); reflexivity.
Defined.

(** A click while no recorder is recording starts a run of
    [startRecording], also when an earlier run is still waiting for its
    stream. *)
Lemma click_while_waiting_starts (a : State) :
  Mic.is_recording (mic a) = false ->
  Mic.getUserMedia_pending (Mic.pending (mic (btnRecord_click a))) =
    S (Mic.getUserMedia_pending (Mic.pending (mic a))).
Proof.
  intros Hrec. unfold btnRecord_click. rewrite Hrec. reflexivity.
Qed.

(** C7: two clicks on the record button before [getUserMedia] has settled
    start two runs of [startRecording]; each is given a stream of its own,
    both streams are live together and both are being recorded, and the
    second click has stopped nothing. *)
Theorem double_click_acquires_two_streams :
  exists a,
    run [RecordClick; RecordClick;
         GetUserMediaSettled (Granted true); GetUserMediaSettled (Granted true)] initial = Some a /\
    Mic.live_streams (mic a) = [0; 1]%nat /\
    Mic.recorders (Mic.devices (mic a)) =
      [Mic.mkRecorder 0 Mic.recording; Mic.mkRecorder 1 Mic.recording] /\
    Mic.stop_events (Mic.pending (mic a)) = [] /\
    Mic.track_stops (Mic.devices (mic a)) = [] /\
    Mic.audioStream (Mic.vars (mic a)) = Some 1%nat.
Proof.
  eexists. split; [vm_compute; reflexivity|]. repeat split.
Qed.

Lemma run_snoc (es : list Event) (e : Event) (a : State) :
  run (es ++ [e]) a = run es a ≫= step e.
Proof.
  unfold run. by rewrite foldl_app.
Qed.

(** The prediction handlers leave the recording state alone, whatever the
    answer. *)
Lemma mic_respond (fallback unreachable : string) (r : Fetch) (a : State) :
  mic (respond fallback unreachable r a) = mic a.
Proof.
  destruct r as [|[[] [data|]]]; reflexivity.
Qed.

Lemma mic_onstop_resume (r : Fetch) (a : State) :
  mic (onstop_resume r a) = mic (onstop_resume Rejected a).
Proof.
  unfold onstop_resume. cbn [mic with_mic]. by rewrite !mic_respond.
Qed.

(** *** A session on its own *)

Lemma run_cons (e : Event) (es : list Event) (a : State) :
  run (e :: es) a = step e a ≫= run es.
Proof.
  unfold run. simpl. destruct (step e a) as [b|]; [done|].
  simpl. induction es as [|e' es IH]; [done|]. exact IH.
Qed.

(** Ending the tracks of a stream changes no recorder and queues no event
    when no recorder is recording. *)
Lemma halt_inactive (sid : nat) (rs : list Mic.Recorder) :
  Forall (fun x => Mic.rec_state x = Mic.inactive) rs -> Mic.halt sid <$> rs = rs.
Proof.
  induction 1 as [|x rs Hx _ IH]; [done|].
  rewrite fmap_cons, IH. f_equal. unfold Mic.halt, Mic.records. by rewrite Hx.
Qed.

Lemma recording_on_snoc (sid : nat) (rs : list Mic.Recorder) (x : Mic.Recorder) :
  Mic.recording_on sid (rs ++ [x]) =
  Mic.recording_on sid rs ++ (if Mic.records sid x then [length rs] else []).
Proof.
  unfold Mic.recording_on. rewrite imap_app, filter_app, fmap_app. f_equal.
  simpl. rewrite filter_cons, filter_nil. simpl. rewrite Nat.add_0_r.
  destruct (Mic.records sid x); by case_decide.
Qed.

Lemma recording_on_inactive (sid : nat) (rs : list Mic.Recorder) :
  Forall (fun x => Mic.rec_state x = Mic.inactive) rs -> Mic.recording_on sid rs = [].
Proof.
  induction rs as [|x rs IH] using rev_ind; [done|].
  intros [Hrs Hx]%Forall_app. rewrite recording_on_snoc, IH by exact Hrs.
  rewrite Forall_singleton in Hx. unfold Mic.records. by rewrite Hx.
Qed.

(** No recorder is recording: a click on the record button starts a
    session. *)
Lemma is_recording_inactive (m : Mic.State) :
  Forall (fun x => Mic.rec_state x = Mic.inactive) (Mic.recorders (Mic.devices m)) ->
  Mic.is_recording m = false.
Proof.
  intros Hrs. unfold Mic.is_recording.
  destruct (Mic.mediaRecorder (Mic.vars m)) as [r|]; [|done].
  destruct (Mic.recorders (Mic.devices m) !! r) as [[sid st]|] eqn:Hr; [|done].
  eapply Forall_lookup_1 in Hrs; [|exact Hr]. simpl in Hrs. by subst st.
Qed.

(** The live among the streams, or the open among the contexts, with one
    more at the end. *)
Lemma live_snoc (l : list bool) (b : bool) :
  (fun p => p.1) <$> filter (fun p : nat * bool => p.2 = true) (imap (fun i y => (i, y)) (l ++ [b])) =
  ((fun p => p.1) <$> filter (fun p : nat * bool => p.2 = true) (imap (fun i y => (i, y)) l))
    ++ (if b then [length l] else []).
Proof.
  rewrite imap_app, filter_app, fmap_app. f_equal.
  simpl. rewrite filter_cons, filter_nil. simpl. rewrite Nat.add_0_r.
  destruct b; by case_decide.
Qed.

(** Runs the handlers of the recording code on a page given field by
    field. *)
Ltac mic_eval :=
  cbv [btnRecord_click startRecording startRecording_resume recording_started onstop
       deliver_stop with_mic mic badge upload system results toast
       predict_pending system_pending calls
       Mic.stopRecording Mic.recorder_stop Mic.end_tracks Mic.stop_tracks Mic.close_context
       Mic.cleanupAudio Mic.acquire_stream Mic.new_recorder_start Mic.startWaveform
       Mic.with_vars Mic.with_panel Mic.with_pending Mic.is_recording
       Mic.vars Mic.panel Mic.devices Mic.pending
       Mic.mediaRecorder Mic.audioStream Mic.audioContext
       Mic.btnRecord_recording Mic.recordLabel_text Mic.recordTimer_display
       Mic.timerText_text Mic.waveCanvas_display
       Mic.streams Mic.recorders Mic.contexts Mic.track_stops Mic.context_closes
       Mic.getUserMedia_pending Mic.stop_events Mic.uploads_pending Nat.pred].

(** The recording state the five events of a session leave. *)
Lemma lone_session_state (a : State) (ending : Event) (r : Fetch) :
  Mic.settled (mic a) ->
  Forall (fun x => Mic.rec_state x = Mic.inactive) (Mic.recorders (Mic.devices (mic a))) ->
  ending = RecordClick \/ ending = TracksEnded (length (Mic.streams (Mic.devices (mic a)))) ->
  exists a',
    run [RecordClick; GetUserMediaSettled (Granted true); ending;
         StopEvent (length (Mic.recorders (Mic.devices (mic a)))); UploadSettled r] a = Some a' /\
    mic a' =
      Mic.mkState
        (Mic.mkVars (Some (length (Mic.recorders (Mic.devices (mic a))))) None None)
        (Mic.mkPanel false "Click to start recording" "none" "00:00" "none")
        (Mic.mkDevices (Mic.streams (Mic.devices (mic a)) ++ [false])
           (Mic.recorders (Mic.devices (mic a))
              ++ [Mic.mkRecorder (length (Mic.streams (Mic.devices (mic a)))) Mic.inactive])
           (Mic.contexts (Mic.devices (mic a)) ++ [false])
           (Mic.track_stops (Mic.devices (mic a))
              ++ [length (Mic.streams (Mic.devices (mic a)))])
           (Mic.context_closes (Mic.devices (mic a))
              ++ [length (Mic.contexts (Mic.devices (mic a)))]))
        (Mic.mkPending 0 [] 0).
Proof.
  intros (Hgum & Hstops & Huploads) Hrs Hending.
  pose proof (is_recording_inactive _ Hrs) as Hrec.
  destruct a as [badge upload m system results toast pp sp calls].
  cbn [mic] in *.
  destruct m as [[mr ast ac] pnl [ss rs cs ts cls] [gum stops uploads]].
  cbn [Mic.pending Mic.devices Mic.getUserMedia_pending Mic.stop_events Mic.uploads_pending
       Mic.recorders Mic.streams Mic.contexts Mic.track_stops Mic.context_closes] in *.
  subst gum stops uploads.
  assert (Forall (fun x => Mic.rec_state x = Mic.inactive)
            (rs ++ [Mic.mkRecorder (length ss) Mic.inactive])) as Hrs'.
  { apply Forall_app. split; [exact Hrs|]. by apply Forall_singleton. }
  cbn [Mic.devices Mic.streams Mic.recorders Mic.contexts Mic.track_stops Mic.context_closes].
  match goal with |- exists a', _ /\ mic a' = ?f => set (final := f) end.
  assert (forall b0,
    exists a',
      run [StopEvent (length rs); UploadSettled r]
        (mkState badge upload
           (Mic.mkState
              (Mic.mkVars (Some (length rs)) (Some (length ss)) (Some (length cs)))
              (Mic.mkPanel true "Recording... click to stop" "flex" "00:00" "block")
              (Mic.mkDevices (ss ++ [b0])
                 (rs ++ [Mic.mkRecorder (length ss) Mic.inactive]) (cs ++ [true]) ts cls)
              (Mic.mkPending 0 [length rs] 0))
           system results toast pp sp calls) = Some a' /\ mic a' = final)
    as Htail.
  { intros b0. eexists (onstop_resume r (deliver_stop (length rs) _)). split.
    - rewrite run_cons. cbn [step mic Mic.pending Mic.stop_events].
      rewrite bool_decide_true by apply list_elem_of_here. cbn [mbind option_bind].
      rewrite run_cons. cbn [step].
      rewrite bool_decide_true by (mic_eval; lia). reflexivity.
    - rewrite mic_onstop_resume.
      unfold onstop_resume, respond, showError, with_toast, log, deliver_stop, onstop,
        with_mic.
      mic_eval. cbn [remove_first].
      rewrite bool_decide_true by reflexivity.
      rewrite !insert_app_r_alt by lia. rewrite !Nat.sub_diag. cbn [insert list_insert].
      rewrite halt_inactive by exact Hrs'.
      rewrite recording_on_inactive by exact Hrs'.
      reflexivity. }
  rewrite run_cons. cbn [step]. unfold btnRecord_click at 1. cbn [mic]. rewrite Hrec.
  cbn [mbind option_bind].
  rewrite run_cons. cbn [step]. mic_eval. rewrite bool_decide_true by lia.
  cbn [mbind option_bind]. mic_eval.
  rewrite run_cons. cbn [step].
  destruct Hending as [-> | ->]; cbn [step]; mic_eval.
  - rewrite list_lookup_middle by reflexivity. cbn [mbind option_bind].
    rewrite alter_app_r_alt by lia. rewrite Nat.sub_diag. cbn [alter list_alter app].
    cbn [Mic.rec_stream]. exact (Htail true).
  - rewrite list_lookup_middle by reflexivity. rewrite bool_decide_true by reflexivity.
    cbn [mbind option_bind].
    rewrite insert_app_r_alt by lia. rewrite Nat.sub_diag. cbn [insert list_insert].
    rewrite fmap_app, halt_inactive by exact Hrs.
    rewrite recording_on_snoc, recording_on_inactive by exact Hrs.
    unfold Mic.halt, Mic.records. cbn [fmap list_fmap Mic.rec_state Mic.rec_stream].
    rewrite !bool_decide_true by reflexivity. cbn [app Mic.rec_stream].
    exact (Htail false).
Qed.

(** A session that starts when nothing of the recording code is suspended
    or queued and no recorder is recording, that is stopped with the button
    or ends because its tracks end, and whose upload settles before anything
    else happens.  During it [stop()] is called once, on the tracks of its
    own stream, and [close()] once, on its own audio context, however the
    upload settles; after it its stream is not live and its context is not
    open, the streams that are live and the contexts that are open are
    those that were before it, both variables are null, and again nothing is
    suspended or queued and no recorder is recording. *)
Theorem lone_session_torn_down_once (a : State) (ending : Event) (r : Fetch) :
  Mic.settled (mic a) ->
  Forall (fun x => Mic.rec_state x = Mic.inactive) (Mic.recorders (Mic.devices (mic a))) ->
  ending = RecordClick \/ ending = TracksEnded (length (Mic.streams (Mic.devices (mic a)))) ->
  exists a',
    run [RecordClick; GetUserMediaSettled (Granted true); ending;
         StopEvent (length (Mic.recorders (Mic.devices (mic a)))); UploadSettled r] a
      = Some a' /\
    Mic.track_stops (Mic.devices (mic a')) =
      Mic.track_stops (Mic.devices (mic a)) ++ [length (Mic.streams (Mic.devices (mic a)))] /\
    Mic.context_closes (Mic.devices (mic a')) =
      Mic.context_closes (Mic.devices (mic a))
        ++ [length (Mic.contexts (Mic.devices (mic a)))] /\
    Mic.streams (Mic.devices (mic a')) !! length (Mic.streams (Mic.devices (mic a)))
      = Some false /\
    Mic.contexts (Mic.devices (mic a')) !! length (Mic.contexts (Mic.devices (mic a)))
      = Some false /\
    Mic.live_streams (mic a') = Mic.live_streams (mic a) /\
    Mic.open_contexts (mic a') = Mic.open_contexts (mic a) /\
    Mic.audioStream (Mic.vars (mic a')) = None /\
    Mic.audioContext (Mic.vars (mic a')) = None /\
    Mic.settled (mic a') /\
    Forall (fun x => Mic.rec_state x = Mic.inactive) (Mic.recorders (Mic.devices (mic a'))).
Proof.
  intros Hsettled Hrs Hending.
  destruct (lone_session_state a ending r Hsettled Hrs Hending) as (a' & Hrun & Hmic).
  exists a'. split; [exact Hrun|]. rewrite Hmic.
  unfold Mic.live_streams, Mic.open_contexts, Mic.settled.
  cbn [Mic.devices Mic.vars Mic.pending Mic.streams Mic.recorders Mic.contexts
       Mic.track_stops Mic.context_closes Mic.audioStream Mic.audioContext
       Mic.getUserMedia_pending Mic.stop_events Mic.uploads_pending].
  rewrite !live_snoc, !app_nil_r, !list_lookup_middle by reflexivity.
  repeat split.
  apply Forall_app. split; [exact Hrs|]. by apply Forall_singleton.
Qed.

(** On the fresh page, and on the page after a start that failed and left
    its stream live: the session that follows stops its own stream, the
    second one of the page, and stream 0 stays live. *)
Lemma lone_session_torn_down_once_example :
  (exists a,
     run [RecordClick; GetUserMediaSettled (Granted true); RecordClick; StopEvent 0;
          UploadSettled example_success] initial = Some a /\
     Mic.track_stops (Mic.devices (mic a)) = [0%nat] /\
     Mic.context_closes (Mic.devices (mic a)) = [0%nat] /\
     Mic.live_streams (mic a) = []) /\
  (exists a,
     run [RecordClick; GetUserMediaSettled (Granted true); TracksEnded 1; StopEvent 0;
          UploadSettled Rejected]
       (startRecording_resume (Granted false) (btnRecord_click initial)) = Some a /\
     Mic.track_stops (Mic.devices (mic a)) = [1%nat] /\
     Mic.context_closes (Mic.devices (mic a)) = [0%nat] /\
     Mic.live_streams (mic a) = [0%nat]).
Proof.
  split.
  - assert (Mic.settled (mic initial)) as Hsettled by (by repeat split).
    destruct (lone_session_torn_down_once initial RecordClick example_success Hsettled
                (Forall_nil_2 _) (or_introl eq_refl))
      as (a & Hrun & Hstops & Hcloses & _ & _ & Hlive & _).
    exists a. by repeat split.
  - assert (Mic.settled (mic (startRecording_resume (Granted false) (btnRecord_click initial))))
      as Hsettled by (by repeat split).
    destruct (lone_session_torn_down_once
                (startRecording_resume (Granted false) (btnRecord_click initial))
                (TracksEnded 1) Rejected Hsettled (Forall_nil_2 _) (or_intror eq_refl))
      as (a & Hrun & Hstops & Hcloses & _ & _ & Hlive & _).
    exists a. by repeat split.
Defined.

(** The other ways the [try] block can throw once the stream is there.
    When [start()] throws, the recorder is already in [mediaRecorder], not
    recording, and the stream stays live.  When the audio context cannot be
    made, the recording has started and the page shows it beside the error;
    the session can still be stopped, and its stream is then stopped, with
    no context to close. *)
Example start_throws_after_stream :
  (exists a,
     run [RecordClick; GetUserMediaSettled StartThrows] initial = Some a /\
     Mic.mediaRecorder (Mic.vars (mic a)) = Some 0%nat /\
     Mic.is_recording (mic a) = false /\
     Mic.live_streams (mic a) = [0%nat] /\
     calls a = [CallShowError "Microphone access denied. Please allow microphone access."]) /\
  (exists a,
     run [RecordClick; GetUserMediaSettled WaveformThrows] initial = Some a /\
     Mic.is_recording (mic a) = true /\
     Mic.btnRecord_recording (Mic.panel (mic a)) = true /\
     Mic.audioContext (Mic.vars (mic a)) = None /\
     calls a = [CallShowError "Microphone access denied. Please allow microphone access."]) /\
  (exists a,
     run [RecordClick; GetUserMediaSettled WaveformThrows; RecordClick; StopEvent 0;
          UploadSettled example_success] initial = Some a /\
     Mic.live_streams (mic a) = [] /\
     Mic.track_stops (Mic.devices (mic a)) = [0%nat] /\
     Mic.context_closes (Mic.devices (mic a)) = []).
Proof.
  repeat split; (eexists; split; [vm_compute; reflexivity|]; repeat split).
Qed.

(** C3: two sessions that end without their stream being stopped.  In the
    first, [getUserMedia] gives a stream and constructing the recorder throws:
    the [catch] reports an error and the stream stays live.  In the second,
    a session is stopped and a new one is started while the upload of the
    first is in flight: when the upload settles, [cleanupAudio] stops the
    stream and closes the context of the second session, and the stream and
    context of the first are never stopped or closed. *)
Theorem teardown_missed :
  (exists a,
     run [RecordClick; GetUserMediaSettled (Granted false)] initial = Some a /\
     Mic.settled (mic a) /\
     Mic.is_recording (mic a) = false /\
     Mic.live_streams (mic a) = [0%nat] /\
     Mic.times_stopped 0 (mic a) = 0%nat) /\
  (exists a,
     run [RecordClick; GetUserMediaSettled (Granted true); RecordClick; StopEvent 0;
          RecordClick; GetUserMediaSettled (Granted true); UploadSettled example_success;
          StopEvent 1; UploadSettled example_success] initial = Some a /\
     Mic.settled (mic a) /\
     Mic.is_recording (mic a) = false /\
     Mic.live_streams (mic a) = [0%nat] /\
     Mic.open_contexts (mic a) = [0%nat] /\
     Mic.times_stopped 0 (mic a) = 0%nat /\
     Mic.times_closed 0 (mic a) = 0%nat /\
     Mic.times_stopped 1 (mic a) = 1%nat /\
     Mic.times_closed 1 (mic a) = 1%nat).
Proof.
  split; (eexists; split; [vm_compute; reflexivity|]; repeat split).
Qed.

End MicFacts.

(** ** More on the bar chart *)

Module ChartFacts.
Import Renderer NumFacts RendererFacts.





Lemma rows_from_fields (i : nat) (items : list Item) :
  label_glyph <$> rows_from i items = (fun item => emoji_of (item_genre item)) <$> items /\
  label_genre <$> rows_from i items = item_genre <$> items /\
  chart_percent <$> rows_from i items =
    (fun item => Num.toFixed1 (times_100 (item_confidence item)) +:+ "%") <$> items /\
  row_className <$> rows_from (S i) items = replicate (length items) "chart-row".
Proof.
  revert i. induction items as [|item items IH]; intros i; [done|].
  destruct (IH (S i)) as (Hglyph & Hgenre & Hpercent & Hclass).
  repeat split; simpl; f_equal; assumption.
Qed.

Lemma painted_from_fields (maxConf : Q) (i : nat) (items : list Item) :
  label_glyph <$> painted_from maxConf i items = label_glyph <$> rows_from i items /\
  label_genre <$> painted_from maxConf i items = label_genre <$> rows_from i items /\
  chart_percent <$> painted_from maxConf i items = chart_percent <$> rows_from i items /\
  row_className <$> painted_from maxConf i items = row_className <$> rows_from i items.
Proof.
  revert i. induction items as [|item items IH]; intros i; [done|].
  destruct (IH (S i)) as (Hglyph & Hgenre & Hpercent & Hclass).
  repeat split; simpl; f_equal; assumption.
Qed.

(** The label of a row whose genre is plain and is not a name the table
    inherits: the table's glyph for the genre, or the default note, a space
    and the genre. *)
Lemma label_text_plain (r : Row) :
  label_glyph r = emoji_of (label_genre r) ->
  plain (label_genre r) = true ->
  label_genre r ∉ inherited_keys ->
  exists glyph, emoji_of (label_genre r) = Text glyph /\
    label_text r = Some (glyph +:+ " " +:+ label_genre r).
Proof.
  intros Hglyph Hplain Hown. unfold label_text. rewrite Hglyph, Hplain.
  unfold emoji_of. destruct (list_find _ GENRE_EMOJIS) as [[i kv]|]; [by eexists|].
  rewrite bool_decide_eq_false_2 by exact Hown. by eexists.
Qed.

(** At every frame after [showResults] the chart has one row per entry of
    [top_genres], in list order.  The label of the row of an entry whose
    genre is plain text and is not a name the table inherits reads: the
    glyph [GENRE_EMOJIS[genre] || '🎵'], a space, the genre.  Every row
    shows the entry's confidence times 100, as the script computes the
    product, to one decimal and followed by [%]; the first row, and no
    other, has the class [top]; and until the second frame every bar is 0
    wide. *)
Theorem chart_rows_follow_top_genres (s : State) (data : Data) (n : nat) :
  wf s ->
  Forall2 (fun r item =>
             plain (item_genre item) = true -> item_genre item ∉ inherited_keys ->
             exists glyph, emoji_of (item_genre item) = Text glyph /\
               label_text r = Some (glyph +:+ " " +:+ item_genre item))
    (displayed_rows (frames n (showResults data s))) (default [] (top_genres data)) /\
  chart_percent <$> displayed_rows (frames n (showResults data s)) =
    (fun item => Num.toFixed1 (Num.binary64 (Num.binary64 (item_confidence item) * 100))
                 +:+ "%")
      <$> default [] (top_genres data) /\
  row_className <$> displayed_rows (frames n (showResults data s)) =
    match default [] (top_genres data) with
    | [] => []
    | _ :: rest => "chart-row top" :: replicate (length rest) "chart-row"
    end /\
  ((n < 2)%nat ->
   bar_widths (frames n (showResults data s)) =
     replicate (length (default [] (top_genres data))) 0).
Proof.
  intros Hwf.
  assert (displayed_rows (frames n (showResults data s)) =
          rendered_rows (default [] (top_genres data)) n) as Hrows.
  { change (view_rows (view (frames n (showResults data s))) =
            view_rows (rendered data n)).
    by rewrite view_frames_showResults. }
  unfold bar_widths. rewrite Hrows. clear Hrows.
  set (items := default [] (top_genres data)).
  assert (label_glyph <$> rendered_rows items n =
            (fun item => emoji_of (item_genre item)) <$> items /\
          label_genre <$> rendered_rows items n = item_genre <$> items /\
          chart_percent <$> rendered_rows items n =
            (fun item => Num.toFixed1 (times_100 (item_confidence item)) +:+ "%")
              <$> items /\
          row_className <$> rendered_rows items n =
            match items with
            | [] => []
            | _ :: rest => "chart-row top" :: replicate (length rest) "chart-row"
            end) as (Hglyph & Hgenre & Hpercent & Hclass).
  { assert (row_className <$> rows_from 0 items =
            match items with
            | [] => []
            | _ :: rest => "chart-row top" :: replicate (length rest) "chart-row"
            end) as Hclass0.
    { destruct items as [|item rest]; [done|].
      destruct (rows_from_fields 0 rest) as (_ & _ & _ & Hrest).
      simpl. f_equal. exact Hrest. }
    destruct (painted_from_fields (maxConf_of items) 0 items) as (H1 & H2 & H3 & H4).
    destruct (rows_from_fields 0 items) as (H1' & H2' & H3' & _).
    unfold rendered_rows. destruct (n <? 2)%nat.
    - by repeat split.
    - rewrite H1, H2, H3, H4. by repeat split. }
  split; [|split; [exact Hpercent|split; [exact Hclass|]]].
  - clear Hpercent Hclass. revert Hglyph Hgenre.
    generalize (rendered_rows items n). intros rows. revert rows.
    induction items as [|item items IH]; intros [|r rows] Hglyph Hgenre;
      simplify_eq/=; constructor.
    + intros Hplain Hown. match goal with H : label_genre r = _ |- _ => rewrite <- H in * end.
      by apply label_text_plain.
    + by apply IH.
  - intros Hn. unfold rendered_rows.
    destruct (Nat.ltb_spec n 2) as [_|Hge]; [apply bar_width_rows | lia].
Qed.

Lemma chart_rows_follow_top_genres_example :
  label_text <$> displayed_rows (frames 2 (showResults example_data blank)) =
    [Some "🎸 rock"; Some "🎵 pop"; Some "🎹 jazz"] /\
  chart_percent <$> displayed_rows (frames 2 (showResults example_data blank)) =
    ["60.0%"; "30.0%"; "10.0%"] /\
  row_className <$> displayed_rows (frames 2 (showResults example_data blank)) =
    ["chart-row top"; "chart-row"; "chart-row"].
Proof.
  destruct (chart_rows_follow_top_genres blank example_data 2 wf_blank)
    as (_ & Hpercent & Hclass & _).
  split; [vm_compute; reflexivity|]. split; [|exact Hclass].
  rewrite Hpercent. vm_compute. reflexivity.
Defined.

(** The percentage printed follows the binary64 product: for 0.1235 it is
    12.3, and for 0.0015 it is 0.1, where the exact products 12.35 and 0.15
    would print as 12.4 and 0.2. *)
Example chart_percent_binary64 :
  chart_percent (new_row (mkItem "rock" 0.1235) 0) = "12.3%" /\
  chart_percent (new_row (mkItem "rock" 0.0015) 0) = "0.1%" /\
  Num.toFixed1 (0.1235 * 100) = "12.4" /\
  Num.toFixed1 (0.0015 * 100) = "0.2".
Proof. vm_compute. repeat split; reflexivity. Qed.

(** A genre named like a property every object inherits finds that
    property in the table, not the default note. *)
Example emoji_of_inherited :
  emoji_of "rock" = Text "🎸" /\
  emoji_of "techno" = Text "🎵" /\
  emoji_of "constructor" = Inherited "constructor".
Proof. repeat split; reflexivity. Qed.

End ChartFacts.

(** ** What every run of the page keeps *)

Module ReachFacts.
Import App Inv.

(** Case analysis on the event of a step that was taken: the handler that
    ran is exposed, and the condition under which it could. *)
Ltac step_cases H :=
  match type of H with step ?e _ = Some _ => destruct e end;
  cbn [step] in H;
  repeat match type of H with
         | context [if ?c then _ else _] => destruct c eqn:?
         end;
  simplify_eq.

(** Handlers that branch before they touch the state. *)
Ltac open_handler :=
  first [ progress unfold btnRecord_click
        | progress unfold btnPredict_click
        | progress unfold startRecording_resume ];
  repeat case_match.

Lemma run_nil (a : State) : run [] a = Some a.
Proof. reflexivity. Qed.

(** What holds at the start and is kept by every step holds after every
    run. *)
Lemma run_invariant (P : State -> Prop) (es : list Event) (a a' : State) :
  (forall e b b', P b -> step e b = Some b' -> P b') ->
  P a -> run es a = Some a' -> P a'.
Proof.
  intros Hstep Ha. revert a'. induction es as [|e es IH] using rev_ind; intros a' Hrun.
  - rewrite run_nil in Hrun. by simplify_eq.
  - rewrite MicFacts.run_snoc in Hrun.
    destruct (run es a) as [b|] eqn:Hb; [|done].
    eapply Hstep; [|exact Hrun]. by apply IH.
Qed.

Lemma respond_frame (fallback unreachable : string) (r : Fetch) (a : State) :
  badge (respond fallback unreachable r a) = badge a /\
  upload (respond fallback unreachable r a) = upload a /\
  mic (respond fallback unreachable r a) = mic a /\
  system (respond fallback unreachable r a) = system a /\
  predict_pending (respond fallback unreachable r a) = predict_pending a /\
  system_pending (respond fallback unreachable r a) = system_pending a.
Proof.
  destruct r as [|[[] [data|]]]; repeat split.
Qed.

Lemma respond_results (fallback unreachable : string) (r : Fetch) (a : State) :
  results (respond fallback unreachable r a) = results a \/
  exists data, results (respond fallback unreachable r a) = Renderer.showResults data (results a).
Proof.
  destruct r as [|[[] [data|]]]; eauto.
Qed.

Lemma respond_toast (fallback unreachable : string) (r : Fetch) (a : State) :
  toast (respond fallback unreachable r a) = toast a \/
  exists msg, toast (respond fallback unreachable r a) = Notifier.showError msg (toast a).
Proof.
  destruct r as [|[[] [data|]]]; eauto.
Qed.

(** A step leaves the results area alone, renders a prediction, or runs an
    animation frame. *)
Lemma step_results (e : Event) (a a' : State) :
  step e a = Some a' ->
  results a' = results a \/
  (exists data, results a' = Renderer.showResults data (results a)) \/
  results a' = Renderer.animation_frame (results a).
Proof.
  intros Hstep. step_cases Hstep;
    try (left; reflexivity);
    try (left; open_handler; reflexivity).
  - destruct (respond_results "Prediction failed"
                "Could not reach the server. Is it running?" r a) as [H|H]; eauto.
  - destruct (respond_results "System audio capture failed"
                "Could not reach the server. Is it running?" r a) as [H|H]; eauto.
  - destruct (respond_results "Prediction failed" "Could not reach the server." r a)
      as [H|H]; eauto.
  - right. right. reflexivity.
Qed.

(** On every page the event loop can reach, the pending animation frame
    callbacks hold row elements that exist. *)
Theorem results_wf_reachable (es : list Event) (a : State) :
  run es initial = Some a -> Renderer.wf (results a).
Proof.
  apply (run_invariant (fun b => Renderer.wf (results b))).
  - intros e b b' Hb Hstep.
    destruct (step_results e b b' Hstep) as [-> | [[data ->] | ->]].
    + exact Hb.
    + by apply RendererFacts.wf_showResults.
    + by apply RendererFacts.wf_animation_frame.
  - exact RendererFacts.wf_blank.
Qed.

Lemma results_wf_reachable_example :
  exists a,
    run [Drop [Upload.mkFile "song.wav" 2048]; PredictClick; PredictSettled example_success;
         AnimationFrame; SystemClick; SystemSettled example_success; AnimationFrame]
      initial = Some a /\
    Renderer.wf (results a).
Proof.
  eexists. split; [vm_compute; reflexivity|].
  apply (results_wf_reachable
           [Drop [Upload.mkFile "song.wav" 2048]; PredictClick; PredictSettled example_success;
            AnimationFrame; SystemClick; SystemSettled example_success; AnimationFrame]).
  vm_compute; reflexivity.
Defined.

Lemma step_calls (e : Event) (a a' : State) :
  step e a = Some a' ->
  exists cs,
    calls a' = calls a ++ cs /\
    length (filter (fun c => is_render c = true) cs) = if renders e then 1%nat else 0%nat.
Proof.
  intros Hstep. step_cases Hstep; cbn [renders];
    try (exists []; split; [by rewrite app_nil_r | reflexivity]);
    try (open_handler; first
           [ exists []; split; [by rewrite app_nil_r | reflexivity]
           | eexists [_]; split; reflexivity ]);
    match goal with
    | r : Fetch |- _ => destruct r as [|[[] [data|]]]; eexists [_]; split; reflexivity
    end.
Qed.

(** Over any run of the page, [showResults] is called once for every
    prediction request that settles with a successful response whose body
    parses, and at no other time. *)
Theorem renders_counted (es : list Event) (a a' : State) :
  run es a = Some a' ->
  length (filter (fun c => is_render c = true) (calls a')) =
  (length (filter (fun c => is_render c = true) (calls a)) +
   length (filter (fun e => renders e = true) es))%nat.
Proof.
  revert a'. induction es as [|e es IH] using rev_ind; intros a' Hrun.
  - rewrite run_nil in Hrun. simplify_eq. simpl. lia.
  - rewrite MicFacts.run_snoc in Hrun.
    destruct (run es a) as [b|] eqn:Hb; [|done]. simpl in Hrun.
    destruct (step_calls e b a' Hrun) as (cs & -> & Hcs).
    rewrite !filter_app, !length_app, (IH b eq_refl), Hcs.
    rewrite filter_cons, filter_nil. destruct (renders e); simpl; lia.
Qed.

Lemma renders_counted_example :
  exists a,
    run [Drop [Upload.mkFile "song.wav" 2048]; PredictClick; PredictSettled example_failure;
         SystemClick; SystemSettled example_success; RecordClick;
         GetUserMediaSettled Denied; PredictClick; PredictSettled Rejected]
      initial = Some a /\
    length (filter (fun c => is_render c = true) (calls a)) = 1%nat /\
    length (calls a) = 4%nat.
Proof.
  eexists. split; [vm_compute; reflexivity|]. split; [|reflexivity].
  rewrite (renders_counted
             [Drop [Upload.mkFile "song.wav" 2048]; PredictClick; PredictSettled example_failure;
              SystemClick; SystemSettled example_success; RecordClick;
              GetUserMediaSettled Denied; PredictClick; PredictSettled Rejected]
             initial _ ltac:(vm_compute; reflexivity)).
  reflexivity.
Defined.

Lemma loading_upload_handlers (files : list Upload.File) (u : Upload.State) :
  loading (Upload.btnPredict (Upload.dropZone_drop files u)) = loading (Upload.btnPredict u) /\
  loading (Upload.btnPredict (Upload.fileInput_change files u)) = loading (Upload.btnPredict u).
Proof.
  unfold Upload.dropZone_drop, Upload.fileInput_change. cbn [Upload.fileInput_files].
  destruct files; repeat split.
Qed.

Lemma loading_kept_by_step (e : Event) (a a' : State) :
  loading_tracks_requests a -> step e a = Some a' -> loading_tracks_requests a'.
Proof.
  intros Hinv Hstep. step_cases Hstep;
    try exact Hinv;
    try (open_handler; first [exact Hinv | split; [cbn; lia | exact (proj2 Hinv)]]);
    destruct Hinv as [Hpredict Hsystem].
  - split; [|exact Hsystem]. cbn [upload with_upload predict_pending].
    by rewrite (proj1 (loading_upload_handlers files (upload a))).
  - split; [|exact Hsystem]. cbn [upload with_upload predict_pending].
    by rewrite (proj2 (loading_upload_handlers files (upload a))).
  - destruct (respond_frame "Prediction failed"
                "Could not reach the server. Is it running?" r a)
      as (_ & _ & _ & Hsys & _ & Hpend).
    split; [done|]. unfold btnPredict_resume.
    cbn [system system_pending with_predict_pending with_upload].
    by rewrite Hsys, Hpend.
  - split; [exact Hpredict|]. intros _. cbn. lia.
  - destruct (respond_frame "System audio capture failed"
                "Could not reach the server. Is it running?" r a)
      as (_ & Hup & _ & _ & Hpend & _).
    split; [|done]. unfold btnSystem_resume.
    cbn [upload predict_pending with_system_pending with_system].
    by rewrite Hup, Hpend.
  - destruct (respond_frame "Prediction failed" "Could not reach the server." r a)
      as (_ & Hup & _ & Hsys & Hpend & Hpend').
    unfold loading_tracks_requests, onstop_resume.
    cbn [upload system predict_pending system_pending with_mic].
    by rewrite Hup, Hsys, Hpend, Hpend'.
Qed.

(** A button never shows its loading state once no request of its own is
    in flight: on every page the event loop can reach, a predict button or
    a system button that is loading has a request pending. *)
Theorem loading_only_while_pending (es : list Event) (a : State) :
  run es initial = Some a ->
  (predict_pending a = 0%nat -> loading (Upload.btnPredict (upload a)) = false) /\
  (system_pending a = 0%nat -> loading (btnSystem (system a)) = false).
Proof.
  intros Hrun.
  assert (loading_tracks_requests a) as [Hpredict Hsystem].
  { revert Hrun. apply run_invariant; [intros e b b'; apply loading_kept_by_step|].
    split; discriminate. }
  split; intros Hzero.
  - destruct (loading (Upload.btnPredict (upload a))); [|done].
    specialize (Hpredict eq_refl). lia.
  - destruct (loading (btnSystem (system a))); [|done].
    specialize (Hsystem eq_refl). lia.
Qed.

Lemma loading_only_while_pending_example :
  exists a,
    run [Drop [Upload.mkFile "song.wav" 2048]; PredictClick; SystemClick;
         PredictSettled Rejected; SystemSettled example_failure] initial = Some a /\
    loading (Upload.btnPredict (upload a)) = false /\
    loading (btnSystem (system a)) = false.
Proof.
  eexists. split; [vm_compute; reflexivity|].
  destruct (loading_only_while_pending
              [Drop [Upload.mkFile "song.wav" 2048]; PredictClick; SystemClick;
               PredictSettled Rejected; SystemSettled example_failure]
              _ ltac:(vm_compute; reflexivity)) as [Hpredict Hsystem].
  split; [apply Hpredict | apply Hsystem]; reflexivity.
Defined.

(** The file panel stays consistent under every step: if the file
    information is shown exactly when a file is selected, and the drop zone
    hidden exactly then, the same holds after the step. *)
Theorem upload_consistent_kept (e : Event) (a a' : State) :
  upload_consistent (upload a) -> step e a = Some a' -> upload_consistent (upload a').
Proof.
  intros Hinv Hstep. step_cases Hstep;
    try exact Hinv;
    try (open_handler; exact Hinv).
  - cbn [upload with_upload]. unfold Upload.dropZone_drop.
    destruct files; [exact Hinv|]. split; (split; [done | by eexists]).
  - cbn [upload with_upload]. unfold Upload.fileInput_change. cbn [Upload.fileInput_files].
    destruct files; [exact Hinv|]. split; (split; [done | by eexists]).
  - cbn [upload with_upload]. split; (split; [by intros [? ?] | done]).
  - destruct (respond_frame "Prediction failed"
                "Could not reach the server. Is it running?" r a)
      as (_ & Hup & _).
    unfold btnPredict_resume. cbn [upload with_predict_pending with_upload].
    rewrite Hup. exact Hinv.
  - destruct (respond_frame "System audio capture failed"
                "Could not reach the server. Is it running?" r a)
      as (_ & Hup & _).
    unfold btnSystem_resume. cbn [upload with_system_pending with_system].
    rewrite Hup. exact Hinv.
  - destruct (respond_frame "Prediction failed" "Could not reach the server." r a)
      as (_ & Hup & _).
    unfold onstop_resume. cbn [upload with_mic]. rewrite Hup. exact Hinv.
Qed.

Lemma upload_consistent_kept_example :
  upload_consistent (upload initial) /\
  exists a,
    step (Drop [Upload.mkFile "song.wav" 2048]) initial = Some a /\
    upload_consistent (upload a).
Proof.
  assert (upload_consistent (upload initial)) as Hinit.
  { split; (split; [by intros [? ?] | done]). }
  split; [exact Hinit|]. eexists. split; [vm_compute; reflexivity|].
  apply (upload_consistent_kept (Drop [Upload.mkFile "song.wav" 2048]) initial);
    [exact Hinit | vm_compute; reflexivity].
Defined.

(** When the selected file is removed while its request is in flight, the
    settling of the request enables the predict button again although no
    file is selected; the click the button then accepts starts no
    request. *)
Theorem removal_in_flight_enables_empty_button (r : Fetch) (a : State) :
  (0 < predict_pending a)%nat ->
  exists b,
    run [FileRemoveClick; PredictSettled r] a = Some b /\
    Upload.selectedFile (upload b) = None /\
    disabled (Upload.btnPredict (upload b)) = false /\
    predict_pending b = pred (predict_pending a) /\
    step PredictClick b = Some b.
Proof.
  intros Hpending.
  destruct (respond_frame "Prediction failed" "Could not reach the server. Is it running?" r
              (with_upload (Upload.fileRemove_click (upload a)) a))
    as (_ & Hup & _ & _ & Hpend & _).
  exists (btnPredict_resume r (with_upload (Upload.fileRemove_click (upload a)) a)).
  assert (Upload.selectedFile
            (upload (btnPredict_resume r (with_upload (Upload.fileRemove_click (upload a)) a)))
          = None) as Hnone.
  { unfold btnPredict_resume. cbn [upload with_predict_pending with_upload]. by rewrite Hup. }
  assert (disabled (Upload.btnPredict
            (upload (btnPredict_resume r (with_upload (Upload.fileRemove_click (upload a)) a))))
          = false) as Henabled.
  { unfold btnPredict_resume. cbn [upload with_predict_pending with_upload]. reflexivity. }
  repeat split; try assumption.
  - unfold run. cbn [foldl mbind option_bind step predict_pending with_upload].
    rewrite bool_decide_true by exact Hpending. reflexivity.
  - unfold btnPredict_resume. cbn [predict_pending with_predict_pending with_upload].
    by rewrite Hpend.
  - cbn [step]. rewrite Henabled. unfold btnPredict_click. by rewrite Hnone.
Qed.

Lemma removal_in_flight_enables_empty_button_example :
  exists a b,
    run [Drop [Upload.mkFile "song.wav" 2048]; PredictClick] initial = Some a /\
    run [FileRemoveClick; PredictSettled example_success] a = Some b /\
    Upload.selectedFile (upload b) = None /\
    disabled (Upload.btnPredict (upload b)) = false /\
    predict_pending b = 0%nat /\
    step PredictClick b = Some b.
Proof.
  eexists. 
  destruct (removal_in_flight_enables_empty_button example_success
              (default initial (run [Drop [Upload.mkFile "song.wav" 2048]; PredictClick] initial)))
    as (b & Hrun & Hnone & Henabled & Hpend & Hclick).
  - vm_compute. lia.
  - exists b. split; [vm_compute; reflexivity|]. split; [exact Hrun|].
    repeat split; assumption.
Defined.

(** *** The toast *)

Lemma filter_empty_iff {A : Type} (P : A -> Prop) `{!forall x, Decision (P x)} (l : list A) :
  filter P l = [] <-> Forall (fun x => ~ P x) l.
Proof.
  induction l as [|x l IH]; [by split|].
  rewrite filter_cons, Forall_cons. destruct (decide (P x)); [|tauto].
  split; [done | tauto].
Qed.

Lemma elapse_fields (ms : Z) (s : Notifier.State) :
  Notifier.errorMessage_text (Notifier.elapse ms s) = Notifier.errorMessage_text s /\
  Notifier.errorToast_animation (Notifier.elapse ms s) = Notifier.errorToast_animation s /\
  Notifier.timeouts (Notifier.elapse ms s) =
    filter (fun t => (0 < t)%Z) ((fun t => (t - ms)%Z) <$> Notifier.timeouts s) /\
  Notifier.errorToast_display (Notifier.elapse ms s) =
    if decide (Exists (fun t => (t <= ms)%Z) (Notifier.timeouts s)) then "none"
    else Notifier.errorToast_display s.
Proof.
  unfold Notifier.elapse.
  set (due := filter (fun t => (t <= 0)%Z) ((fun t => (t - ms)%Z) <$> Notifier.timeouts s)).
  set (start := Notifier.mkState _ _ _ _).
  assert (Notifier.errorToast_animation (foldl (fun s' _ => Notifier.timeout_callback s') start due)
          = Notifier.errorToast_animation start) as Hanim.
  { clearbody start. clear. revert start.
    induction due as [|t due IH]; intros start; [done|]. simpl. by rewrite IH. }
  destruct (NotifierFacts.foldl_timeout_callback due start) as (Hmsg & Hdisplay & Htimeouts).
  rewrite Hmsg, Hanim, Htimeouts, Hdisplay. repeat split.
  assert (due = [] <-> ~ Exists (fun t => (t <= ms)%Z) (Notifier.timeouts s)) as Hdue.
  { unfold due. rewrite filter_empty_iff, Forall_fmap, <- Forall_Exists_neg.
    apply Forall_iff. intros t. unfold compose. lia. }
  case_decide as Hex.
  - destruct due; [|done]. exfalso. by apply Hdue.
  - by rewrite (proj2 Hdue Hex).
Qed.

Lemma toast_eq (s s' : Notifier.State) :
  Notifier.errorMessage_text s = Notifier.errorMessage_text s' ->
  Notifier.errorToast_display s = Notifier.errorToast_display s' ->
  Notifier.errorToast_animation s = Notifier.errorToast_animation s' ->
  Notifier.timeouts s = Notifier.timeouts s' ->
  s = s'.
Proof.
  destruct s, s'; simpl; congruence.
Qed.

(** Time adds up in the model of [setTimeout]: letting [a] and then [b]
    milliseconds pass leaves the toast and its pending timeouts as letting
    [a + b] milliseconds pass at once. *)
Theorem elapse_additive (a b : Z) (s : Notifier.State) :
  (0 <= a)%Z -> (0 <= b)%Z ->
  Notifier.elapse b (Notifier.elapse a s) = Notifier.elapse (a + b) s.
Proof.
  intros Ha Hb.
  destruct (elapse_fields a s) as (Hmsg1 & Hanim1 & Htime1 & Hdisplay1).
  destruct (elapse_fields b (Notifier.elapse a s)) as (Hmsg2 & Hanim2 & Htime2 & Hdisplay2).
  destruct (elapse_fields (a + b) s) as (Hmsg3 & Hanim3 & Htime3 & Hdisplay3).
  apply toast_eq.
  - congruence.
  - rewrite Hdisplay2, Hdisplay1, Hdisplay3, Htime1.
    assert (Exists (fun t => (t <= a + b)%Z) (Notifier.timeouts s) <->
            Exists (fun t => (t <= a)%Z) (Notifier.timeouts s) \/
            Exists (fun t => (t <= b)%Z)
              (filter (fun t => (0 < t)%Z) ((fun t => (t - a)%Z) <$> Notifier.timeouts s)))
      as Hsplit.
    { rewrite !Exists_exists. split.
      - intros (t & Ht & Hle). destruct (decide (t <= a)%Z) as [Hta|Hta].
        + left. eauto.
        + right. exists (t - a)%Z. split; [|lia].
          apply list_elem_of_filter. split; [lia|].
          apply list_elem_of_fmap. eauto.
      - intros [(t & Ht & Hle) | (u & Hu & Hle)].
        + exists t. split; [done | lia].
        + apply list_elem_of_filter in Hu as [Hpos Hu].
          apply list_elem_of_fmap in Hu as (t & -> & Ht).
          exists t. split; [done | lia]. }
    repeat case_decide; tauto || done.
  - congruence.
  - rewrite Htime2, Htime1, Htime3. clear -Ha Hb.
    induction (Notifier.timeouts s) as [|t ts IH]; [done|].
    rewrite !fmap_cons, !filter_cons.
    destruct (decide (0 < t - a)%Z), (decide (0 < t - (a + b))%Z);
      rewrite ?fmap_cons, ?filter_cons; repeat case_decide; try lia;
      rewrite IH; (done || (f_equal; lia)).
Qed.

Lemma elapse_additive_example :
  Notifier.elapse 2500 (Notifier.elapse 4000 (Notifier.showError "B"
     (Notifier.elapse 1000 (Notifier.showError "A" Notifier.blank)))) =
  Notifier.elapse 6500 (Notifier.showError "B"
     (Notifier.elapse 1000 (Notifier.showError "A" Notifier.blank))).
Proof.
  apply (elapse_additive 4000 2500); lia.
Defined.

(** A step leaves the toast alone, shows an error, closes the toast, or
    lets time pass. *)
Lemma step_toast (e : Event) (a a' : State) :
  step e a = Some a' ->
  toast a' = toast a \/
  (exists msg, toast a' = Notifier.showError msg (toast a)) \/
  toast a' = Notifier.errorClose_click (toast a) \/
  (exists ms, (0 <= ms)%Z /\ toast a' = Notifier.elapse ms (toast a)).
Proof.
  intros Hstep. step_cases Hstep;
    try (left; reflexivity);
    try (open_handler; first [left; reflexivity | right; left; eexists; reflexivity]).
  - destruct (respond_toast "Prediction failed"
                "Could not reach the server. Is it running?" r a) as [H|H]; eauto.
  - destruct (respond_toast "System audio capture failed"
                "Could not reach the server. Is it running?" r a) as [H|H]; eauto.
  - destruct (respond_toast "Prediction failed" "Could not reach the server." r a)
      as [H|H]; eauto.
  - right. right. left. reflexivity.
  - right. right. right. exists ms. split; [|reflexivity].
    by apply bool_decide_eq_true in Heqb.
Qed.

Lemma toast_timed_kept (e : Event) (a a' : State) :
  toast_timed (toast a) -> step e a = Some a' -> toast_timed (toast a').
Proof.
  intros [Hbounded Hshown] Hstep. unfold timeouts_bounded in Hbounded.
  destruct (step_toast e a a' Hstep) as [-> | [[msg ->] | [-> | (ms & Hms & ->)]]].
  - by split.
  - split.
    + apply Forall_app. split; [exact Hbounded|]. repeat constructor; lia.
    + intros _. simpl. by destruct (Notifier.timeouts (toast a)).
  - split; [exact Hbounded | done].
  - destruct (elapse_fields ms (toast a)) as (_ & _ & Htime & Hdisplay).
    unfold toast_timed, timeouts_bounded. rewrite Htime, Hdisplay. split.
    + apply Forall_forall. intros u Hu.
      apply list_elem_of_filter in Hu as [Hpos Hu].
      apply list_elem_of_fmap in Hu as (t & -> & Ht).
      rewrite Forall_forall in Hbounded. specialize (Hbounded t Ht). lia.
    + case_decide as Hex; [done|]. intros Hflex. specialize (Hshown Hflex).
      destruct (Notifier.timeouts (toast a)) as [|t ts]; [done|].
      rewrite fmap_cons, filter_cons.
      rewrite <- Forall_Exists_neg, Forall_cons in Hex. case_decide; [done | lia].
Qed.

(** On every page the event loop can reach, six seconds without a new
    error are enough for the toast to be gone: once 6000 milliseconds have
    passed, it is not displayed and no timeout is pending. *)
Theorem toast_gone_after_six_seconds (es : list Event) (a : State) :
  run es initial = Some a ->
  Notifier.errorToast_display (Notifier.elapse 6000 (toast a)) <> "flex" /\
  Notifier.timeouts (Notifier.elapse 6000 (toast a)) = [].
Proof.
  intros Hrun.
  assert (toast_timed (toast a)) as [Hbounded Hshown].
  { apply (run_invariant (fun b => toast_timed (toast b)) es initial a).
    - intros e b b'. apply toast_timed_kept.
    - split; [constructor | discriminate].
    - exact Hrun. }
  unfold timeouts_bounded in Hbounded.
  destruct (elapse_fields 6000 (toast a)) as (_ & _ & Htime & Hdisplay).
  rewrite Htime, Hdisplay. split.
  - case_decide as Hex; [done|]. intros Hflex. specialize (Hshown Hflex).
    destruct (Notifier.timeouts (toast a)) as [|t ts]; [done|].
    apply Hex. left. apply Forall_cons in Hbounded as [Ht _]. lia.
  - apply filter_empty_iff, Forall_fmap, Forall_forall. intros t Ht.
    rewrite Forall_forall in Hbounded. specialize (Hbounded t Ht).
    unfold compose. lia.
Qed.

Lemma toast_gone_after_six_seconds_example :
  exists a,
    run [SystemClick; SystemSettled Rejected; Elapse 4000; ErrorCloseClick; SystemClick;
         SystemSettled example_failure] initial = Some a /\
    Notifier.errorToast_display (toast a) = "flex" /\
    Notifier.timeouts (toast a) = [2000%Z; 6000%Z] /\
    Notifier.errorToast_display (Notifier.elapse 6000 (toast a)) <> "flex" /\
    Notifier.timeouts (Notifier.elapse 6000 (toast a)) = [].
Proof.
  eexists. split; [vm_compute; reflexivity|].
  split; [reflexivity|]. split; [reflexivity|].
  apply (toast_gone_after_six_seconds
           [SystemClick; SystemSettled Rejected; Elapse 4000; ErrorCloseClick; SystemClick;
            SystemSettled example_failure]).
  vm_compute; reflexivity.
Defined.

(** *** Releasing the microphone *)

(** [cleanupAudio] releases what the variables hold and forgets it: after
    it both variables are null, the stream it held is no longer live and
    the context it held no longer open, and a second call in a row changes
    nothing: nothing is stopped or closed twice. *)
Theorem cleanupAudio_releases_once (m : Mic.State) :
  Mic.audioStream (Mic.vars (Mic.cleanupAudio m)) = None /\
  Mic.audioContext (Mic.vars (Mic.cleanupAudio m)) = None /\
  (forall sid, Mic.audioStream (Mic.vars m) = Some sid ->
     (sid ∉ Mic.live_streams (Mic.cleanupAudio m)) /\
     Mic.times_stopped sid (Mic.cleanupAudio m) = S (Mic.times_stopped sid m)) /\
  (forall cid, Mic.audioContext (Mic.vars m) = Some cid ->
     (cid ∉ Mic.open_contexts (Mic.cleanupAudio m)) /\
     Mic.times_closed cid (Mic.cleanupAudio m) = S (Mic.times_closed cid m)) /\
  Mic.cleanupAudio (Mic.cleanupAudio m) = Mic.cleanupAudio m.
Proof.
  assert (forall (l : list bool) (i : nat),
            i ∉ (fun p => p.1) <$> filter (fun p => p.2 = true)
                  (imap (fun j b => (j, b)) (<[i := false]> l))) as Hdead.
  { intros l i Hin. apply list_elem_of_fmap in Hin as ([j b] & Hj & Hin). simpl in Hj. subst j.
    apply list_elem_of_filter in Hin as [Hb Hin]. simpl in Hb. subst b.
    apply list_elem_of_lookup in Hin as [k Hk]. rewrite list_lookup_imap in Hk.
    destruct (<[i := false]> l !! k) as [b|] eqn:Hb; simplify_eq/=.
    destruct (decide (i < length l)%nat) as [Hlt|Hge].
    - rewrite list_lookup_insert_eq in Hb by done. done.
    - rewrite list_insert_ge in Hb by lia. apply lookup_lt_Some in Hb. lia. }
  destruct m as [[rec stream ctx] panel [streams recorders contexts stops closes] pending].
  unfold Mic.cleanupAudio, Mic.times_stopped, Mic.times_closed, Mic.live_streams,
    Mic.open_contexts.
  destruct stream as [sid|], ctx as [cid|];
    cbn [Mic.audioStream Mic.audioContext Mic.vars Mic.stop_tracks Mic.end_tracks
         Mic.close_context Mic.with_vars Mic.devices Mic.streams Mic.contexts Mic.track_stops
         Mic.context_closes Mic.mediaRecorder Mic.pending Mic.panel Mic.recorders];
    repeat split; try done; simplify_eq;
    first [ apply Hdead
          | rewrite filter_app, length_app, filter_cons, filter_nil;
            case_decide; [simpl; lia | done] ].
Qed.

End ReachFacts.

(** ** The status badge over several checks *)

Module BadgeFacts.
Import Health Inv.

(** After any number of health checks the badge shows the outcome of the
    most recent check that was either answered with a success or failed
    with a network error; checks answered with another status do not count,
    and when no check counts the badge is as it was. *)
Theorem badge_shows_last_decisive (rs : list Fetch) (s : State) :
  foldl (fun s' r => checkHealth r s') s rs =
  match last (omap decisive rs) with
  | Some online => badge_of online
  | None => s
  end.
Proof.
  induction rs as [|r rs IH] using rev_ind; [done|].
  rewrite foldl_app, omap_app, IH. cbn [foldl].
  destruct r as [|[[] body]].
  - change (omap decisive [Rejected]) with [false]. by rewrite last_snoc.
  - change (omap decisive [Resolved (mkResponse true body)]) with [true].
    by rewrite last_snoc.
  - change (omap decisive [Resolved (mkResponse false body)]) with (@nil bool).
    by rewrite app_nil_r.
Qed.

End BadgeFacts.

(** ** Recorded audio *)

Module ChunkFacts.
Import Chunks.

Lemma foldl_ondataavailable (events : list (list Byte.byte)) (audioChunks : list (list Byte.byte)) :
  foldl ondataavailable audioChunks events =
  audioChunks ++ filter (fun data => data <> []) events.
Proof.
  revert audioChunks. induction events as [|data events IH]; intros audioChunks.
  - by rewrite app_nil_r.
  - simpl. rewrite IH, filter_cons. unfold ondataavailable.
    destruct data as [|b data]; case_decide; try done; simpl.
    by rewrite <- app_assoc.
Qed.

(** The chunks kept while recording are the non-empty ones among the data
    the recorder delivered, in the order of delivery, and the blob built
    from them has every byte that was delivered, in that order: dropping
    the empty chunks loses nothing. *)
Theorem blob_has_all_data (events : list (list Byte.byte)) :
  recorded events = filter (fun data => data <> []) events /\
  Blob (recorded events) = concat events.
Proof.
  unfold recorded. rewrite foldl_ondataavailable. split; [done|].
  unfold Blob. simpl. induction events as [|data events IH]; [done|].
  rewrite filter_cons. destruct data as [|b data]; case_decide; try done; simpl.
  by rewrite IH.
Qed.

End ChunkFacts.

(** ** Elapsed time of a recording *)

Module TimerFacts.
Import Timer.

Lemma two_digits_table : forallb two_digits (seq 0 100) = true.
Proof. vm_compute. reflexivity. Qed.

Lemma two_digits_below_100 (k : nat) :
  (k < 100)%nat ->
  exists a b,
    padStart2 (Num.String_of_Z (Z.of_nat k)) = String a (String b EmptyString) /\
    (digit a * 10 + digit b = k)%nat.
Proof.
  intros Hk. pose proof two_digits_table as Htable.
  rewrite forallb_forall in Htable. specialize (Htable k).
  assert (two_digits k = true) as Htwo by (apply Htable, in_seq; lia).
  unfold two_digits in Htwo.
  destruct (padStart2 _) as [|a [|b [|c t]]]; try done.
  exists a, b. split; [done|]. by apply Nat.eqb_eq.
Qed.

Lemma recordSeconds_after (k : nat) : recordSeconds (after k) = k.
Proof.
  induction k as [|k IH]; [done|].
  unfold after in *. simpl. by rewrite IH.
Qed.

Lemma three_chars_table : forallb three_chars (seq 100 900) = true.
Proof. vm_compute. reflexivity. Qed.

(** [k] ticks into a recording the counter is [k].  For the first hundred
    minutes the timer text is five characters [mm:ss] that read back as [k]
    seconds; from then on and up to a thousand minutes it has six
    characters, the minutes taking three: [padStart] does not shorten. *)
Theorem timer_text_reads_back (k : nat) :
  recordSeconds (after k) = k /\
  ((k < 100 * 60)%nat ->
   String.length (timerText_text (after k)) = 5%nat /\
   read (timerText_text (after k)) = Some k) /\
  ((100 * 60 <= k < 1000 * 60)%nat ->
   String.length (timerText_text (after k)) = 6%nat /\
   read (timerText_text (after k)) = None).
Proof.
  split; [apply recordSeconds_after|]. split.
  - intros Hk. destruct k as [|k]; [by split|].
    change (after (S k)) with (tick (after k)). unfold tick.
    cbn [timerText_text]. rewrite recordSeconds_after.
    destruct (two_digits_below_100 (S k / 60)) as (a & b & -> & Hm).
    { apply Nat.Div0.div_lt_upper_bound. lia. }
    destruct (two_digits_below_100 (S k mod 60)) as (c & d & -> & Hs).
    { pose proof (Nat.mod_upper_bound (S k) 60). lia. }
    split; [reflexivity|].
    change (String a (String b "") +:+ ":" +:+ String c (String d ""))
      with (String a (String b (String ":"%char (String c (String d ""))))).
    cbn [read]. rewrite Hm, Hs. f_equal.
    pose proof (Nat.div_mod_eq (S k) 60). lia.
  - intros [Hlo Hhi]. destruct k as [|k]; [lia|].
    change (after (S k)) with (tick (after k)). unfold tick.
    cbn [timerText_text]. rewrite recordSeconds_after.
    destruct (two_digits_below_100 (S k mod 60)) as (c & d & -> & Hs).
    { pose proof (Nat.mod_upper_bound (S k) 60). lia. }
    pose proof three_chars_table as Htable.
    rewrite forallb_forall in Htable. specialize (Htable (S k / 60)%nat).
    assert (three_chars (S k / 60) = true) as Hthree.
    { apply Htable, in_seq. split.
      - apply Nat.div_le_lower_bound; lia.
      - apply Nat.Div0.div_lt_upper_bound. lia. }
    unfold three_chars in Hthree. apply Nat.eqb_eq in Hthree.
    destruct (padStart2 _) as [|m1 [|m2 [|m3 [|m4 t]]]]; try done.
    split; [reflexivity|]. destruct m3 as [[] [] [] [] [] [] [] []]; reflexivity.
Qed.

Lemma timer_text_reads_back_example :
  timerText_text (after 754) = "12:34" /\
  read (timerText_text (after 754)) = Some 754%nat /\
  timerText_text (after (100 * 60)) = "100:00" /\
  String.length (timerText_text (after (100 * 60))) = 6%nat.
Proof.
  split; [vm_compute; reflexivity|].
  destruct (timer_text_reads_back 754) as (_ & Hshort & _).
  destruct (timer_text_reads_back (100 * 60)) as (_ & _ & Hlong).
  split; [apply Hshort; lia|]. split; [vm_compute; reflexivity|].
  apply Hlong. lia.
Defined.

End TimerFacts.

(** ** Waveform *)

Module WaveformFacts.
Import Waveform.

(** The loop paints one rectangle per entry; the [k]-th after index [i]
    starts [k] bar widths to the right of [x]. *)
Lemma bars_from_lookup (h barW bufferLength : Q) (rest : list Z) (i : nat) (x : Q) (k : nat)
    (v : Z) :
  rest !! k = Some v ->
  exists r,
    bars_from h barW bufferLength i x rest !! k = Some r /\
    rect_x r == x + inject_Z (Z.of_nat k) * barW /\
    hue r = 260 + inject_Z (Z.of_nat (i + k)) / bufferLength * 60 /\
    rect_h r = inject_Z v / 255 * h /\
    rect_y r = h - rect_h r /\
    rect_w r = barW - 1.
Proof.
  revert i x k. induction rest as [|v' rest IH]; intros i x k Hk; [done|].
  destruct k as [|k]; simpl in Hk.
  - simplify_eq. eexists. split; [reflexivity|]. simpl.
    rewrite Nat.add_0_r. repeat split. change (inject_Z 0) with 0. ring.
  - destruct (IH (S i) (x + barW) k Hk) as (r & Hr & Hx & Hhue & Hh & Hy & Hw).
    exists r. split; [exact Hr|]. repeat split; try assumption.
    + rewrite Hx, Nat2Z.inj_succ, <- Z.add_1_r, inject_Z_plus.
      change (inject_Z 1) with 1. ring.
    + rewrite Hhue. by replace (S i + k)%nat with (i + S k)%nat by lia.
Qed.

Lemma length_bars_from (h barW bufferLength : Q) (rest : list Z) (i : nat) (x : Q) :
  length (bars_from h barW bufferLength i x rest) = length rest.
Proof.
  revert i x. induction rest as [|v rest IH]; intros i x; [done|].
  simpl. by rewrite IH.
Qed.

(** One run of [draw] on a canvas [w] wide and [h] high paints one bar per
    frequency bin.  Bar [i] starts [i] bar widths from the left, a bar
    width being 2.5 times the canvas width over the number of bins, so it
    starts inside the canvas exactly when [5 * i] is below twice the number
    of bins: the upper three fifths of the bins are painted off the canvas.
    Its height is the bin's value over 255 of the canvas height, it stands
    on the bottom edge, and its hue runs from 260 up to, not reaching,
    320. *)
Theorem draw_geometry (w h : Q) (dataArray : list Z) (i : nat) (v : Z) :
  0 < w -> 0 <= h ->
  Forall (fun v => (0 <= v <= 255)%Z) dataArray ->
  dataArray !! i = Some v ->
  length (draw w h dataArray) = length dataArray /\
  exists r,
    draw w h dataArray !! i = Some r /\
    (rect_x r < w <-> (5 * i < 2 * length dataArray)%nat) /\
    rect_h r == inject_Z v / 255 * h /\
    0 <= rect_h r <= h /\
    rect_y r + rect_h r == h /\
    260 <= hue r < 320.
Proof.
  intros Hw Hh Hdata Hi. unfold draw. split; [apply length_bars_from|].
  set (n := inject_Z (Z.of_nat (length dataArray))).
  set (j := inject_Z (Z.of_nat i)).
  destruct (bars_from_lookup h (w / n * 2.5) n dataArray 0 0 i v Hi)
    as (r & Hr & Hx & Hhue & Hbar & Hy & _).
  exists r. split; [exact Hr|].
  assert (i < length dataArray)%nat as Hlt by (by eapply lookup_lt_Some).
  assert (0 <= j) as Hj.
  { unfold j. rewrite <- (Zle_Qle 0). lia. }
  assert (j < n) as Hjn.
  { unfold j, n. rewrite <- Zlt_Qlt. lia. }
  assert (0 <= inject_Z v <= 255) as [Hv0 Hv255].
  { rewrite Forall_forall in Hdata.
    destruct (Hdata v) as [H0 H255]; [by eapply list_elem_of_lookup_2|].
    split; [change 0 with (inject_Z 0) | change 255 with (inject_Z 255)];
      rewrite <- Zle_Qle; lia. }
  assert (forall V, 0 <= V <= 255 -> 0 <= V / 255 * h <= h) as Hheight.
  { intros V [HV0 HV255]. unfold Qdiv. change (/ 255) with (1 # 255). split; nra. }
  set (q := w / n) in *.
  assert (w == q * n) as Hq by (unfold q; field; lra).
  assert (0 < q) as Hqpos by (unfold q; apply Qlt_shift_div_l; lra).
  set (p := j / n) in *.
  assert (j == p * n) as Hp by (unfold p; field; lra).
  assert (0 <= p < 1) as [Hp0 Hp1].
  { split.
    - unfold p. apply Qle_shift_div_l; lra.
    - unfold p. apply Qlt_shift_div_r; lra. }
  repeat split.
  - intros Hin. rewrite Hx in Hin. fold j in Hin.
    assert (5 * j < 2 * n) as H5 by nra.
    unfold j, n in H5.
    rewrite <- (inject_Z_mult 5), <- (inject_Z_mult 2), <- Zlt_Qlt in H5. lia.
  - intros H5. rewrite Hx. fold j.
    assert (5 * j < 2 * n) as H5'.
    { unfold j, n. rewrite <- (inject_Z_mult 5), <- (inject_Z_mult 2), <- Zlt_Qlt. lia. }
    nra.
  - by rewrite Hbar.
  - rewrite Hbar. apply Hheight. by split.
  - rewrite Hbar. apply Hheight. by split.
  - rewrite Hy. ring.
  - rewrite Hhue. simpl Nat.add. fold j. fold p. lra.
  - rewrite Hhue. simpl Nat.add. fold j. fold p. lra.
Qed.

Lemma draw_geometry_example :
  exists r1 r2,
    draw 300 100 [255; 0; 128; 64; 32]%Z !! 1%nat = Some r1 /\
    draw 300 100 [255; 0; 128; 64; 32]%Z !! 2%nat = Some r2 /\
    rect_x r1 < 300 /\
    ~ rect_x r2 < 300 /\
    0 <= rect_h r2 <= 100.
Proof.
  assert (Forall (fun v => (0 <= v <= 255)%Z) [255; 0; 128; 64; 32]%Z) as Hdata
    by (repeat constructor; lia).
  destruct (draw_geometry 300 100 [255; 0; 128; 64; 32]%Z 1 0) as (_ & r1 & Hr1 & Hin1 & _);
    [reflexivity | discriminate | exact Hdata | reflexivity |].
  destruct (draw_geometry 300 100 [255; 0; 128; 64; 32]%Z 2 128)
    as (_ & r2 & Hr2 & Hin2 & _ & Hh2 & _);
    [reflexivity | discriminate | exact Hdata | reflexivity |].
  exists r1, r2. repeat split; try assumption; try apply Hh2.
  - apply Hin1. simpl. lia.
  - intros Hx. apply Hin2 in Hx. simpl in Hx. lia.
Defined.

End WaveformFacts.

(** ** Tab switching *)

Module TabFacts.
Import Tabs.

Lemma querySelector_deactivate (sel : string) (doc : list Node) :
  querySelector sel (deactivate_panel <$> doc) = querySelector sel doc.
Proof.
  unfold querySelector. induction doc as [|n doc IH]; [done|].
  rewrite fmap_cons. cbn [list_find].
  assert (node_id (deactivate_panel n) = node_id n) as Hid
    by (unfold deactivate_panel; by destruct (input_panel n)).
  rewrite Hid. case_decide; [done|].
  destruct (list_find _ (deactivate_panel <$> doc)) as [[k x]|],
    (list_find _ doc) as [[k' x']|]; simplify_eq/=; done.
Qed.

Lemma deactivate_panel_fields (n : Node) :
  input_panel (deactivate_panel n) = input_panel n /\
  (input_panel n = true -> node_active (deactivate_panel n) = false).
Proof.
  unfold deactivate_panel. destruct (input_panel n) eqn:Hn; by split.
Qed.

(** A click on the tab at index [i], whose [data-mode] is made of ASCII
    letters, digits, [-] and [_], leaves that tab, and no other, active and
    keeps the modes of the tabs.  When an element has the id the handler
    looks up ("panel" and the mode with its first letter in upper case), the
    handler completes and an input panel is active exactly when it is the
    first element with that id; when none has, the handler throws after it
    has deactivated every input panel. *)
Theorem tab_click_selects (i : nat) (s : State) (tab : Tab) (m : string) :
  modeTabs s !! i = Some tab ->
  mode tab = Some m ->
  plain_mode m = true ->
  exists s' completed,
    tab_click i s = Some (s', completed) /\
    completed =
      bool_decide (is_Some (querySelector ("panel" +:+ capitalize m) (document s))) /\
    (forall j t, modeTabs s' !! j = Some t -> (tab_active t = true <-> j = i)) /\
    (forall j n, document s' !! j = Some n -> input_panel n = true ->
       (node_active n = true <->
        querySelector ("panel" +:+ capitalize m) (document s) = Some j)) /\
    mode <$> modeTabs s' = mode <$> modeTabs s.
Proof.
  intros Htab Hmode Hplain. unfold tab_click.
  rewrite Htab, Hmode, Hplain, querySelector_deactivate.
  assert (forall j t,
            alter activate_tab i (deactivate_tab <$> modeTabs s) !! j = Some t ->
            (tab_active t = true <-> j = i)) as Htabs.
  { intros j t Hj. rewrite list_lookup_alter in Hj. case_decide as Hij.
    - subst j. rewrite list_lookup_fmap, Htab in Hj. by simplify_eq/=.
    - rewrite list_lookup_fmap in Hj.
      destruct (modeTabs s !! j) as [t0|]; simplify_eq/=. split; [done | congruence]. }
  assert (mode <$> alter activate_tab i (deactivate_tab <$> modeTabs s) = mode <$> modeTabs s)
    as Hmodes.
  { apply list_eq. intros j. rewrite !list_lookup_fmap, list_lookup_alter.
    case_decide as Hij.
    - subst j. rewrite list_lookup_fmap. by destruct (modeTabs s !! i).
    - rewrite list_lookup_fmap. by destruct (modeTabs s !! j). }
  destruct (querySelector _ (document s)) as [p|] eqn:Hp.
  - eexists _, _. split; [reflexivity|]. cbn [modeTabs document].
    split; [by rewrite bool_decide_true by eauto|]. split; [exact Htabs|].
    split; [|exact Hmodes].
    intros j n Hj Hpanel. rewrite list_lookup_alter in Hj. case_decide as Hpj.
    + subst j. rewrite list_lookup_fmap in Hj.
      destruct (document s !! p) as [n0|]; by simplify_eq/=.
    + rewrite list_lookup_fmap in Hj.
      destruct (document s !! j) as [n0|]; simplify_eq/=.
      destruct (deactivate_panel_fields n0) as [Hsame Hoff].
      rewrite Hsame in Hpanel. rewrite (Hoff Hpanel). split; [done | congruence].
  - eexists _, _. split; [reflexivity|]. cbn [modeTabs document].
    split; [by rewrite bool_decide_false by (by intros [? ?])|]. split; [exact Htabs|].
    split; [|exact Hmodes].
    intros j n Hj Hpanel. rewrite list_lookup_fmap in Hj.
    destruct (document s !! j) as [n0|]; simplify_eq/=.
    destruct (deactivate_panel_fields n0) as [Hsame Hoff].
    rewrite Hsame in Hpanel. rewrite (Hoff Hpanel). split; done.
Qed.

(** The page's three tabs: a click on the second one, and a click on a tab
    for which the page has no panel. *)
Lemma tab_click_selects_example :
  tab_click 1
    (mkState [mkTab (Some "upload") true; mkTab (Some "record") false;
              mkTab (Some "system") false]
       [mkNode "panelUpload" true true; mkNode "panelRecord" true false;
        mkNode "panelSystem" true false]) =
  Some (mkState [mkTab (Some "upload") false; mkTab (Some "record") true;
                 mkTab (Some "system") false]
     [mkNode "panelUpload" true false; mkNode "panelRecord" true true;
      mkNode "panelSystem" true false], true) /\
  exists s' completed,
    tab_click 0
      (mkState [mkTab (Some "live") false; mkTab (Some "record") true]
         [mkNode "panelRecord" true true]) = Some (s', completed) /\
    completed = false /\
    document s' = [mkNode "panelRecord" true false].
Proof.
  split; [reflexivity|].
  destruct (tab_click_selects 0
              (mkState [mkTab (Some "live") false; mkTab (Some "record") true]
                 [mkNode "panelRecord" true true])
              (mkTab (Some "live") false) "live" eq_refl eq_refl eq_refl)
    as (s' & completed & Hclick & Hcompleted & _).
  exists s', completed. split; [exact Hclick|]. split; [exact Hcompleted|].
  vm_compute in Hclick. by simplify_eq.
Defined.

(** A tab without [data-mode]: the handler throws at [mode.charAt], the
    tab clicked is active and no input panel is. *)
Example tab_click_no_mode :
  tab_click 0 (mkState [mkTab None false] [mkNode "panelUpload" true true]) =
  Some (mkState [mkTab None true] [mkNode "panelUpload" true false], false).
Proof. reflexivity. Qed.

End TabFacts.

(** ** The size shown for a file *)

Module SizeFacts.
Import Upload NumFacts.

(** For a number that is not negative, [toFixed(1)] prints the tenths
    nearest to it. *)
Lemma toFixed1_nonnegative (x : Q) :
  0 <= x ->
  exists n : Z,
    Num.toFixed1 x = Num.String_of_Z (n / 10) +:+ "." +:+ Num.String_of_Z (n mod 10) /\
    inject_Z n - (1 # 2) <= x * 10 < inject_Z n + (1 # 2).
Proof.
  intros Hx. exists (Qfloor (x * 10 + (1 # 2))). unfold Num.toFixed1.
  assert (Num.gtb 0 x = false) as -> by (by apply gtb_false).
  assert (Qabs x = x) as ->.
  { by destruct x as [[|p|p] d]. }
  split; [reflexivity|].
  pose proof (Qfloor_le (x * 10 + (1 # 2))) as Hlo.
  pose proof (Qlt_floor (x * 10 + (1 # 2))) as Hhi.
  rewrite inject_Z_plus in Hhi. change (inject_Z 1) with 1 in Hhi. split; lra.
Qed.

(** [formatBytes] shows a size below 1024 in bytes, exactly; a size below
    1048576 in KB and any larger size in MB, to the nearest tenth.  The
    number of tenths shown is at least 10 (1.0), and in KB at most 10240:
    sizes just below a megabyte are shown as 1024.0 KB. *)
Theorem formatBytes_nearest_tenth (bytes : Z) :
  (0 <= bytes)%Z ->
  ((bytes < 1024)%Z -> formatBytes bytes = Num.String_of_Z bytes +:+ " B") /\
  ((1024 <= bytes < 1048576)%Z ->
   exists n : Z,
     formatBytes bytes =
       (Num.String_of_Z (n / 10) +:+ "." +:+ Num.String_of_Z (n mod 10)) +:+ " KB" /\
     (10 <= n <= 10240)%Z /\
     inject_Z n - (1 # 2) <= inject_Z bytes / 1024 * 10 < inject_Z n + (1 # 2)) /\
  ((1048576 <= bytes)%Z ->
   exists n : Z,
     formatBytes bytes =
       (Num.String_of_Z (n / 10) +:+ "." +:+ Num.String_of_Z (n mod 10)) +:+ " MB" /\
     (10 <= n)%Z /\
     inject_Z n - (1 # 2) <= inject_Z bytes / 1048576 * 10 < inject_Z n + (1 # 2)).
Proof.
  intros Hbytes.
  assert (0 <= inject_Z bytes) as Hq by (change 0 with (inject_Z 0); rewrite <- Zle_Qle; lia).
  assert (forall lo : Z, (lo <= bytes)%Z -> inject_Z lo <= inject_Z bytes) as Hlo
    by (intros lo Hle; by rewrite <- Zle_Qle).
  assert (forall n : Z, 9 < inject_Z n -> (10 <= n)%Z) as Hten.
  { intros n Hn. change 9 with (inject_Z 9) in Hn. rewrite <- Zlt_Qlt in Hn. lia. }
  unfold formatBytes. repeat split.
  - intros Hlt. apply Z.ltb_lt in Hlt. by rewrite Hlt.
  - intros [Hge Hlt].
    assert ((bytes <? 1024)%Z = false) as -> by (apply Z.ltb_ge; lia).
    assert ((bytes <? 1048576)%Z = true) as -> by (apply Z.ltb_lt; lia).
    destruct (toFixed1_nonnegative (inject_Z bytes / 1024)) as (n & -> & Hn0 & Hn1).
    { apply Qle_shift_div_l; lra. }
    exists n. split; [reflexivity|]. split; [|by split].
    pose proof (Hlo 1024%Z Hge) as H1024. change (inject_Z 1024) with 1024 in H1024.
    assert (inject_Z bytes <= 1048575) as Hup.
    { change 1048575 with (inject_Z 1048575). rewrite <- Zle_Qle. lia. }
    assert (inject_Z bytes / 1024 == inject_Z bytes * (1 # 1024)) as Hdiv by (field; lra).
    rewrite Hdiv in Hn0, Hn1. split.
    + apply Hten. lra.
    + assert (inject_Z n < inject_Z 10241) as Hlt'
        by (change (inject_Z 10241) with 10241; lra).
      rewrite <- Zlt_Qlt in Hlt'. lia.
  - intros Hge.
    assert ((bytes <? 1024)%Z = false) as -> by (apply Z.ltb_ge; lia).
    assert ((bytes <? 1048576)%Z = false) as -> by (apply Z.ltb_ge; lia).
    destruct (toFixed1_nonnegative (inject_Z bytes / 1048576)) as (n & -> & Hn0 & Hn1).
    { apply Qle_shift_div_l; lra. }
    exists n. split; [reflexivity|]. split; [|by split].
    pose proof (Hlo 1048576%Z Hge) as Hmega.
    change (inject_Z 1048576) with 1048576 in Hmega.
    assert (inject_Z bytes / 1048576 == inject_Z bytes * (1 # 1048576)) as Hdiv
      by (field; lra).
    rewrite Hdiv in Hn0, Hn1. apply Hten. lra.
Qed.

Lemma formatBytes_nearest_tenth_example :
  formatBytes 1023 = "1023 B" /\
  formatBytes 1536 = "1.5 KB" /\
  formatBytes 1048575 = "1024.0 KB" /\
  formatBytes 5242880 = "5.0 MB".
Proof.
  split; [|vm_compute; repeat split].
  rewrite (proj1 (formatBytes_nearest_tenth 1023 ltac:(lia))) by lia. reflexivity.
Defined.

End SizeFacts.

(** ** Buttons after a request *)

Module ButtonFacts.
Import App.

(** Whatever way the request settles (a rendered prediction, an error
    status, a body that does not parse, a network error), the handler
    leaves its button enabled and not loading, the system button with its
    label again, and one request fewer in flight. *)
Theorem buttons_restored (r : Fetch) (a : State) :
  (disabled (Upload.btnPredict (upload (btnPredict_resume r a))) = false /\
   loading (Upload.btnPredict (upload (btnPredict_resume r a))) = false /\
   predict_pending (btnPredict_resume r a) = pred (predict_pending a) /\
   Upload.selectedFile (upload (btnPredict_resume r a)) = Upload.selectedFile (upload a)) /\
  (disabled (btnSystem (system (btnSystem_resume r a))) = false /\
   loading (btnSystem (system (btnSystem_resume r a))) = false /\
   btn_text (btnSystem (system (btnSystem_resume r a))) = "Start Listening" /\
   system_pending (btnSystem_resume r a) = pred (system_pending a) /\
   durationSlider_value (system (btnSystem_resume r a)) = durationSlider_value (system a)).
Proof.
  destruct (ReachFacts.respond_frame "Prediction failed"
              "Could not reach the server. Is it running?" r a)
    as (_ & Hup & _ & _ & Hpend & _).
  destruct (ReachFacts.respond_frame "System audio capture failed"
              "Could not reach the server. Is it running?" r a)
    as (_ & _ & _ & Hsys & _ & Hpend').
  unfold btnPredict_resume, btnSystem_resume.
  cbn [upload system predict_pending system_pending with_predict_pending with_upload
       with_system_pending with_system btnSystem durationSlider_value].
  rewrite Hup, Hpend, Hsys, Hpend'. repeat split.
Qed.

End ButtonFacts.

(** ** The chart at rest *)

Module FrameFacts.
Import Renderer RendererFacts.

(** Two animation frames after [showResults] no frame callback is left, and
    further frames change nothing: the chart is at rest. *)
Theorem chart_at_rest (s : State) (data : Data) (n : nat) :
  wf s -> (2 <= n)%nat ->
  frame_callbacks (frames n (showResults data s)) = [] /\
  frames (S n) (showResults data s) = frames n (showResults data s).
Proof.
  intros Hwf Hn.
  assert (forall m, frames (2 + m) (showResults data s) =
                    animation_frame (animation_frame (showResults data s))) as Hrest.
  { intros m. change (frames (2 + m) (showResults data s))
      with (frames m (animation_frame (animation_frame (showResults data s)))).
    apply frames_idle. by rewrite second_frame. }
  replace n with (2 + (n - 2))%nat by lia.
  replace (S (2 + (n - 2)))%nat with (2 + S (n - 2))%nat by lia.
  rewrite !Hrest. split; [|reflexivity]. by rewrite second_frame.
Qed.

Lemma chart_at_rest_example :
  frame_callbacks (frames 2 (showResults example_data blank)) = [] /\
  frames 3 (showResults example_data blank) = frames 2 (showResults example_data blank).
Proof.
  apply (chart_at_rest blank example_data 2); [exact wf_blank | lia].
Defined.

End FrameFacts.
